(** * Hotel room reservation: the allocator of [hotel_reservation.py]

    A shallow embedding of [Room], [HotelSystem] and [HotelSystem.book_rooms],
    followed by the properties of the allocator: validation, the same-floor
    search, the cross-floor search and the commit step. *)

From stdpp Require Import list numbers sorting strings pretty.

#[local] Set Warnings "-clear-no-such-hyp".

Local Open Scope Z_scope.

(** ** Data model *)

(** [class Room]: Python integers are unbounded, hence [Z]. *)
Record Room := mkRoom {
  floor : Z;
  index : Z;
  is_booked : bool;
  number : Z
}.

(** [Room.__init__(floor, index)]. *)
Definition Room_init (f i : Z) : Room :=
  {| floor := f;
     index := i;
     is_booked := false;
     number := if f <? 10 then (f * 100) + (i + 1) else 1000 + (i + 1) |}.

(** The assignment [r.is_booked = b]. *)
Definition set_is_booked (b : bool) (r : Room) : Room :=
  {| floor := floor r; index := index r; is_booked := b; number := number r |}.

(** [class HotelSystem]: the list of room objects and the numbers booked by
    the most recent successful call. *)
Record HotelSystem := mkHotel {
  rooms : list Room;
  last_booked_ids : list Z
}.

(** Python's [range(lo, hi)] and [range(hi)]; empty when [hi <= lo]. *)
Definition range (lo hi : Z) : list Z :=
  (λ k : nat, lo + Z.of_nat k) <$> seq 0 (Z.to_nat (hi - lo)).

Definition range0 (hi : Z) : list nat := seq 0 (Z.to_nat hi).

(** [HotelSystem._init_hotel]: floors 1..10, ten rooms each, seven on floor 10. *)
Definition _init_hotel : list Room :=
  flat_map (λ f, let count := if f =? 10 then 7 else 10 in
                 Room_init f <$> range 0 count)
           (range 1 11).

(** [HotelSystem.__init__]. *)
Definition HotelSystem_init : HotelSystem :=
  {| rooms := _init_hotel; last_booked_ids := [] |}.

(** [HotelSystem.reset] (its console message is not modelled). *)
Definition reset (h : HotelSystem) : HotelSystem :=
  {| rooms := _init_hotel; last_booked_ids := [] |}.

(** [HotelSystem.generate_random]: [coin i] is the outcome of the i-th test
    [random.random() < 0.3] (console output not modelled). *)
Definition generate_random (coin : nat → bool) (h : HotelSystem) : HotelSystem :=
  {| rooms := imap (λ i r, set_is_booked (coin i) r) (rooms h);
     last_booked_ids := [] |}.

(** ** Room objects during one call

    [book_rooms] builds several lists that alias the objects of [self.rooms].
    An object is identified by its position in [self.rooms]; a reference
    carries that position together with the fields read from the object.
    The fields are written only by the commit step at the end of the call. *)
Definition Ref : Type := nat * Room.

Definition rfloor (r : Ref) : Z := floor r.2.
Definition rindex (r : Ref) : Z := index r.2.
Definition rnumber (r : Ref) : Z := number r.2.

Definition enumerate (rs : list Room) : list Ref := imap (λ i r, (i, r)) rs.

(** [min_cost] starts at [float('inf')] and later holds integers. *)
Inductive Cost :=
  | Finite (c : Z)
  | Infinity.

(** The test [cost < min_cost] for an integer [cost]. *)
Definition cost_lt (c : Z) (m : Cost) : bool :=
  match m with
  | Infinity => true
  | Finite m => c <? m
  end.

(** What the call prints, one constructor per [print] of [book_rooms];
    [Grid] stands for the call of [print_grid]. *)
Inductive Message :=
  | ErrInvalidCount
  | ErrNotEnough
  | InfoCrossFloor
  | Success (room_nums : list Z)
  | TravelCost (c : Cost)
  | Grid
  | ErrNoArrangement.

(** ** Python list primitives *)

(** [l[i : i+n]] for [0 <= i] and [0 <= n]. *)
Definition slice {A} (l : list A) (i : nat) (n : Z) : list A :=
  take (Z.to_nat n) (drop i l).

(** [subset[0].index] and [subset[-1].index]; every window the loops build
    holds [n >= 1] rooms (lemma [length_slice]), so the default is never used. *)
Definition first_index (subset : list Ref) : Z :=
  match head subset with Some r => rindex r | None => 0 end.

Definition last_index (subset : list Ref) : Z :=
  match last subset with Some r => rindex r | None => 0 end.

(** [max(l)] and [min(l)] on a list of integers (non-empty where called). *)
Definition py_max (l : list Z) : Z :=
  match l with [] => 0 | x :: l' => foldl Z.max x l' end.

Definition py_min (l : list Z) : Z :=
  match l with [] => 0 | x :: l' => foldl Z.min x l' end.

(** [list.sort(key=...)] and [sorted(..., key=...)]: a stable sort, ascending
    by key.  Insertion from the right puts an element before the first one
    whose key is not smaller, which keeps equal keys in their original order. *)
Fixpoint insert_by {A} (key : A → Z) (x : A) (l : list A) : list A :=
  match l with
  | [] => [x]
  | y :: l' => if key x <=? key y then x :: y :: l' else y :: insert_by key x l'
  end.

Definition sort_by {A} (key : A → Z) (l : list A) : list A :=
  foldr (insert_by key) [] l.

(** The dict [floors]: Python dicts iterate in insertion order, so it is an
    association list; [floors_append f r d] is
    [if f not in d: d[f] = []] followed by [d[f].append(r)]. *)
Fixpoint floors_append (f : Z) (r : Ref) (d : list (Z * list Ref)) : list (Z * list Ref) :=
  match d with
  | [] => [(f, [r])]
  | (g, rs) :: d' =>
      if decide (g = f) then (g, rs ++ [r]) :: d' else (g, rs) :: floors_append f r d'
  end.

Definition group_by_floor (available : list Ref) : list (Z * list Ref) :=
  foldl (λ d r, floors_append (rfloor r) r d) [] available.

(** ** The search *)

(** The locals [best_set], [min_cost] and [found_same_floor]. *)
Record Search := mkSearch {
  best_set : list Ref;
  min_cost : Cost;
  found_same_floor : bool
}.

Definition Search_init : Search :=
  {| best_set := []; min_cost := Infinity; found_same_floor := false |}.

(** Body of the inner loop of the same-floor search (window at [i]). *)
Definition same_floor_window (n : Z) (floor_rooms : list Ref) (st : Search) (i : nat) : Search :=
  let subset := slice floor_rooms i n in
  let cost := last_index subset - first_index subset in
  if cost_lt cost (min_cost st)
  then {| best_set := subset; min_cost := Finite cost; found_same_floor := true |}
  else st.

(** Body of [for f, floor_rooms in floors.items()]. *)
Definition same_floor_floor (n : Z) (st : Search) (entry : Z * list Ref) : Search :=
  let floor_rooms := entry.2 in
  if n <=? Z.of_nat (length floor_rooms) then
    let floor_rooms := sort_by rindex floor_rooms in
    foldl (same_floor_window n floor_rooms) st
          (range0 (Z.of_nat (length floor_rooms) - n + 1))
  else st.

(** Priority 1: same floor. *)
Definition same_floor_search (n : Z) (available : list Ref) : Search :=
  foldl (same_floor_floor n) Search_init (group_by_floor available).

(** The proximity score [(r.floor * 2) + r.index]. *)
Definition score (r : Ref) : Z := (rfloor r * 2) + rindex r.

(** Body of the loop of the cross-floor search (window at [i]). *)
Definition cross_floor_window (n : Z) (sorted_available : list Ref) (st : Search) (i : nat) : Search :=
  let subset := slice sorted_available i n in
  let floors := rfloor <$> subset in
  let indexes := rindex <$> subset in
  let v_cost := (py_max floors - py_min floors) * 2 in
  let h_cost := (py_max indexes - py_min indexes) * 1 in
  let total_cost := v_cost + h_cost in
  if cost_lt total_cost (min_cost st)
  then {| best_set := subset; min_cost := Finite total_cost;
          found_same_floor := found_same_floor st |}
  else st.

(** Priority 2: across floors ([min_cost] is reset first). *)
Definition cross_floor_search (n : Z) (available : list Ref) (st : Search) : Search :=
  let sorted_available := sort_by score available in
  let st := {| best_set := best_set st; min_cost := Infinity;
               found_same_floor := found_same_floor st |} in
  foldl (cross_floor_window n sorted_available) st
        (range0 (Z.of_nat (length sorted_available) - n + 1)).

(** The loop [for r in best_set: r.is_booked = True]: each assignment
    writes the object at the reference's position. *)
Definition mark_booked (rs : list Room) (chosen : list Ref) : list Room :=
  foldl (λ rs r, alter (set_is_booked true) r.1 rs) rs chosen.

(** "Apply booking": an empty [best_set] is falsy. *)
Definition commit (h : HotelSystem) (st : Search) (out : list Message) : HotelSystem * list Message :=
  match best_set st with
  | [] => (h, out ++ [ErrNoArrangement])
  | _ :: _ =>
      ({| rooms := mark_booked (rooms h) (best_set st);
          last_booked_ids := rnumber <$> best_set st |},
       out ++ [Success (rnumber <$> best_set st); TravelCost (min_cost st); Grid])
  end.

(** [available = [r for r in self.rooms if not r.is_booked]]. *)
Definition available_rooms (h : HotelSystem) : list Ref :=
  filter (λ r : Ref, is_booked r.2 = false) (enumerate (rooms h)).

(** Both search stages, after validation. *)
Definition search (n : Z) (available : list Ref) : Search * list Message :=
  let st := same_floor_search n available in
  if negb (found_same_floor st)
  then (cross_floor_search n available st, [InfoCrossFloor])
  else (st, []).

(** [HotelSystem.book_rooms(n)]: the new state and the messages printed. *)
Definition book_rooms (h : HotelSystem) (n : Z) : HotelSystem * list Message :=
  if negb ((1 <=? n) && (n <=? 5)) then (h, [ErrInvalidCount])
  else
    let available := available_rooms h in
    if Z.of_nat (length available) <? n then (h, [ErrNotEnough])
    else
      let '(st, out) := search n available in
      commit h st out.

(** The constructed hotel with the occupancy [booked floor index]. *)
Definition occupy (booked : Z → Z → bool) : HotelSystem :=
  {| rooms := (λ r, set_is_booked (booked (floor r) (index r)) r) <$> _init_hotel;
     last_booked_ids := [] |}.

(** States the program can be in: built by [__init__], then changed by
    [reset], [generate_random] and [book_rooms]. *)
Inductive reachable : HotelSystem → Prop :=
  | reach_init : reachable HotelSystem_init
  | reach_reset h : reachable h → reachable (reset h)
  | reach_random coin h : reachable h → reachable (generate_random coin h)
  | reach_book n h : reachable h → reachable (book_rooms h n).1.

(** The fields of a room that never change. *)
Definition place (r : Room) : Z * Z * Z := (floor r, index r, number r).

(** [h] has the rooms of the constructed hotel, with any occupancy. *)
Definition hotel_layout (h : HotelSystem) : Prop :=
  place <$> rooms h = place <$> _init_hotel.

(** No two rooms share a (floor, index) position. *)
Definition distinct_positions (h : HotelSystem) : Prop :=
  NoDup ((λ r, (floor r, index r)) <$> rooms h).

(** Number of available rooms on floor [f]. *)
Definition available_on (h : HotelSystem) (f : Z) : nat :=
  length (filter (λ r : Ref, rfloor r = f) (available_rooms h)).

(** ** Vocabulary of the specification and of the proofs *)

(** Ascending order by key. *)
Definition key_le {A} (key : A → Z) (a b : A) : Prop := key a ≤ key b.

(** The available rooms of floor [f], in the order of [available]. *)
Definition on_floor (f : Z) (available : list Ref) : list Ref :=
  filter (λ r : Ref, rfloor r = f) available.

(** [floors.get(f)]: the first entry with key [f]. *)
Fixpoint floors_get (f : Z) (d : list (Z * list Ref)) : option (list Ref) :=
  match d with
  | [] => None
  | (g, rs) :: d' => if decide (g = f) then Some rs else floors_get f d'
  end.

(** One loop iteration, for either stage: [cost] is the stage's cost and
    [mark] tells whether an update sets [found_same_floor]. *)
Definition scan_step (cost : list Ref → Z) (mark : bool) (st : Search) (w : list Ref) : Search :=
  if cost_lt (cost w) (min_cost st)
  then {| best_set := w; min_cost := Finite (cost w);
          found_same_floor := mark || found_same_floor st |}
  else st.

(** A whole loop over the candidate windows [ws]. *)
Definition scan (cost : list Ref → Z) (mark : bool) (st : Search) (ws : list (list Ref)) : Search :=
  foldl (scan_step cost mark) st ws.

(** Same-floor cost: index of the last room minus index of the first. *)
Definition span_cost (w : list Ref) : Z := last_index w - first_index w.

(** Cross-floor cost, as the loop computes it. *)
Definition box_cost (w : list Ref) : Z :=
  (py_max (rfloor <$> w) - py_min (rfloor <$> w)) * 2
  + (py_max (rindex <$> w) - py_min (rindex <$> w)) * 1.

(** All windows of [n] consecutive elements of [s], left to right. *)
Definition windows (n : Z) (s : list Ref) : list (list Ref) :=
  (λ i, slice s i n) <$> range0 (Z.of_nat (length s) - n + 1).

(** The windows the same-floor search visits, in the order it visits them. *)
Definition floor_windows (n : Z) (entry : Z * list Ref) : list (list Ref) :=
  if n <=? Z.of_nat (length entry.2) then windows n (sort_by rindex entry.2) else [].

(** ... over all floors, in the iteration order of the dict. *)
Definition same_floor_windows (n : Z) (available : list Ref) : list (list Ref) :=
  group_by_floor available ≫= floor_windows n.

(** The result of committing window [w] at cost [c] after printing [out]. *)
Definition booking (h : HotelSystem) (w : list Ref) (c : Z) (out : list Message)
    : HotelSystem * list Message :=
  ({| rooms := mark_booked (rooms h) w; last_booked_ids := rnumber <$> w |},
   out ++ [Success (rnumber <$> w); TravelCost (Finite c); Grid]).

(** [w] is at position [k] of [ws] and is the first window of least [cost]. *)
Definition first_minimum (cost : list Ref → Z) (ws : list (list Ref)) (k : nat) (w : list Ref) : Prop :=
  ws !! k = Some w
  ∧ ∀ j w', ws !! j = Some w' → cost w ≤ cost w' ∧ ((j < k)%nat → cost w < cost w').

(** The four ways a call of [book_rooms] can go. *)
Inductive book_rooms_case (h : HotelSystem) (n : Z) : Prop :=
  | case_invalid :
      ¬ (1 ≤ n ≤ 5) →
      book_rooms h n = (h, [ErrInvalidCount]) →
      book_rooms_case h n
  | case_not_enough :
      1 ≤ n ≤ 5 → Z.of_nat (length (available_rooms h)) < n →
      book_rooms h n = (h, [ErrNotEnough]) →
      book_rooms_case h n
  | case_same_floor k w :
      1 ≤ n ≤ 5 → n ≤ Z.of_nat (length (available_rooms h)) →
      (∃ f, n ≤ Z.of_nat (length (on_floor f (available_rooms h)))) →
      first_minimum span_cost (same_floor_windows n (available_rooms h)) k w →
      book_rooms h n = booking h w (span_cost w) [] →
      book_rooms_case h n
  | case_cross_floor k w :
      1 ≤ n ≤ 5 → n ≤ Z.of_nat (length (available_rooms h)) →
      (∀ f, Z.of_nat (length (on_floor f (available_rooms h))) < n) →
      first_minimum box_cost (windows n (sort_by score (available_rooms h))) k w →
      book_rooms h n = booking h w (box_cost w) [InfoCrossFloor] →
      book_rooms_case h n.

(** Greatest and least element of a list. *)
Definition is_max (m : Z) (l : list Z) : Prop := m ∈ l ∧ ∀ x, x ∈ l → x ≤ m.

Definition is_min (m : Z) (l : list Z) : Prop := m ∈ l ∧ ∀ x, x ∈ l → m ≤ x.

(** The cost in the words of the specification:
    [2 * (max floor - min floor) + 1 * (max index - min index)]. *)
Definition bounding_box_cost (w : list Ref) (c : Z) : Prop :=
  ∃ fmax fmin imax imin,
    is_max fmax (rfloor <$> w) ∧ is_min fmin (rfloor <$> w)
    ∧ is_max imax (rindex <$> w) ∧ is_min imin (rindex <$> w)
    ∧ c = 2 * (fmax - fmin) + 1 * (imax - imin).


(** The occupancy that leaves only rooms 106, 206 and 401 available:
    [generate_random] with every draw but the 6th, 16th and 31st a booking. *)
Definition fragmented : HotelSystem :=
  generate_random (λ i, negb (bool_decide (i ∈ [5; 15; 30]%nat))) HotelSystem_init.

(** Floor [f] has available rooms at the [n] indices [k], [k+1], ...,
    [k+n-1]: a run of [n] rooms with no gap. *)
Definition contiguous_run (h : HotelSystem) (f k n : Z) : Prop :=
  ∀ j, 0 ≤ j < n →
    ∃ (i : nat) (r : Room),
      rooms h !! i = Some r ∧ is_booked r = false ∧ floor r = f ∧ index r = k + j.

(** The ten room objects of floor 1 when none is booked, and the first
    window of three the same-floor search visits. *)
Definition first_floor : list Room := Room_init 1 <$> range 0 10.


Definition first_window : list Ref :=
  [(0%nat, Room_init 1 0); (1%nat, Room_init 1 1); (2%nat, Room_init 1 2)].

(** Membership of a message in an explicit list of messages. *)
Ltac msg_in H :=
  cbn [fst snd app] in H;
  repeat (rewrite ?elem_of_app, ?elem_of_cons, ?elem_of_nil in H);
  intuition (subst; try discriminate).

(** ** [HotelSystem.print_grid] *)

(** Python's [range(start, stop, -1)]. *)
Definition range_down (start stop : Z) : list Z :=
  (λ k : nat, start - Z.of_nat k) <$> seq 0 (Z.to_nat (start - stop)).

(** The three texts a room can be shown as: ["[*] "], ["[X] "], ["[ ] "]. *)
Inductive Cell :=
  | JustBooked
  | Occupied
  | Free.

#[global] Instance Cell_eq_dec : EqDecision Cell.
Proof. solve_decision. Defined.

Definition cell_text (c : Cell) : string :=
  match c with
  | JustBooked => "[*] "
  | Occupied => "[X] "
  | Free => "[ ] "
  end.

(** The branch of the [if]/[elif]/[else] taken for room [r]. *)
Definition cell (h : HotelSystem) (r : Room) : Cell :=
  if decide (number r ∈ last_booked_ids h) then JustBooked
  else if is_booked r then Occupied
  else Free.

(** [floor_rooms] in the loop body: the rooms of floor [f], sorted by index. *)
Definition grid_floor_rooms (h : HotelSystem) (f : Z) : list Room :=
  sort_by index (filter (λ r, floor r = f) (rooms h)).

Definition row_cells (h : HotelSystem) (f : Z) : list Cell :=
  cell h <$> grid_floor_rooms h f.

(** The format [{f:2}]: decimal, right-aligned in two columns. *)
Definition fmt_width2 (f : Z) : string :=
  let s := pretty f in
  if (String.length s <? 2)%nat then " " +:+ s else s.

(** [row_str] once the inner loop has appended every cell. *)
Definition row_str (h : HotelSystem) (f : Z) : string :=
  foldl (λ row c, row +:+ cell_text c) ("Floor " +:+ fmt_width2 f +:+ " | ")
        (row_cells h f).

Definition LF : string := String (Ascii.ascii_of_nat 10) EmptyString.

Definition rule : string := String.concat EmptyString (replicate 40 "=").

(** The lines [print_grid] prints, one per [print]; the state is only read. *)
Definition print_grid (h : HotelSystem) : list string :=
  [LF +:+ rule; " HOTEL VISUALIZATION ";
   " [ ]=Avail  [X]=Booked  [*]=Just Booked"; rule +:+ LF]
  ++ (row_str h <$> range_down 10 0)
  ++ ["         ^ LIFT/STAIRS ^" +:+ LF].

(** All the cells of the grid, top row first. *)
Definition grid_cells (h : HotelSystem) : list Cell :=
  range_down 10 0 ≫= row_cells h.

(** ** [main]: the menu loop *)

(** How a run ends: the user chose ['0'], or [input] reached the end of the
    input (an uncaught [EOFError]). *)
Inductive Ending :=
  | Exited
  | EndOfInput.

Section main.

(** [parse_int] is Python's [int] on a line of input ([None] when it raises
    [ValueError]); [coin k] is the outcome of the k-th test
    [random.random() < 0.3] of the run. *)
Context (parse_int : string → option Z) (coin : nat → bool).

(** The [while True] loop over the lines read by [input].  Console output
    is not part of the model: it keeps the state of [system], the number of
    random draws made so far, and how the loop ends.  Choice ['4'] and any
    unknown choice only print. *)
Fixpoint main_loop (inputs : list string) (system : HotelSystem) (draws : nat)
    : HotelSystem * nat * Ending :=
  match inputs with
  | [] => (system, draws, EndOfInput)
  | choice :: rest =>
      if decide (choice = "0") then (system, draws, Exited)
      else if decide (choice = "1") then
        match rest with
        | [] => (system, draws, EndOfInput)
        | line :: rest' =>
            match parse_int line with
            | Some n => main_loop rest' (book_rooms system n).1 draws
            | None => main_loop rest' system draws
            end
        end
      else if decide (choice = "2") then
        main_loop rest (generate_random (λ i, coin (draws + i)) system)
                  (draws + length (rooms system))
      else if decide (choice = "3") then main_loop rest (reset system) draws
      else main_loop rest system draws
  end.

(** [main()]: a fresh [HotelSystem], then the loop. *)
Definition main (inputs : list string) : HotelSystem * nat * Ending :=
  main_loop inputs HotelSystem_init 0.

End main.

(** ** Vocabulary for the further properties *)

(** Floor 1 with rooms 101, 104, 105 and 110 available, all else booked. *)
Definition gapped : HotelSystem :=
  occupy (λ f i, negb ((f =? 1) && bool_decide (i ∈ [0; 3; 4; 9]))).

(** Every room whose number is in [last_booked_ids] is booked: the rooms
    [print_grid] highlights are occupied ones. *)
Definition highlight_booked (h : HotelSystem) : Prop :=
  ∀ r, r ∈ rooms h → number r ∈ last_booked_ids h → is_booked r = true.

(** The floor of a window (of its first room), and the order in which
    the same-floor search visits windows: lower floors first, and on one
    floor the windows that start nearer the lift first. *)
Definition window_floor (w : list Ref) : Z :=
  match head w with Some r => rfloor r | None => 0 end.

Definition scan_before (w1 w2 : list Ref) : Prop :=
  window_floor w1 < window_floor w2
  ∨ (window_floor w1 = window_floor w2 ∧ first_index w1 < first_index w2).

(** Rooms 101, 110 and 201 available, all else booked. *)
Definition sparse : HotelSystem :=
  generate_random (λ i, negb (bool_decide (i ∈ [0; 9; 10]%nat))) HotelSystem_init.

(** The texts of a list of cells, one after the other. *)
Definition cells_text (cs : list Cell) : string :=
  foldr (λ c s, cell_text c +:+ s) EmptyString cs.

(** * Properties *)

(** ** The stable sort *)

Section sort_by.
Context {A : Type} (key : A → Z).

Lemma insert_by_Permutation x l : insert_by key x l ≡ₚ x :: l.
Proof.
  induction l as [|y l IH]; simpl; [done|].
  destruct (key x <=? key y); [done|].
  rewrite IH. apply Permutation_swap.
Qed.

Lemma sort_by_Permutation l : sort_by key l ≡ₚ l.
Proof.
  induction l as [|x l IH]; simpl; [done|].
  rewrite insert_by_Permutation. by f_equiv.
Qed.

Lemma length_sort_by l : length (sort_by key l) = length l.
Proof. by rewrite sort_by_Permutation. Qed.

Lemma elem_of_sort_by x l : x ∈ sort_by key l ↔ x ∈ l.
Proof. by rewrite sort_by_Permutation. Qed.

Lemma insert_by_sorted x l :
  StronglySorted (key_le key) l → StronglySorted (key_le key) (insert_by key x l).
Proof.
  induction 1 as [|y l Hl IH Hy]; simpl.
  - repeat constructor.
  - destruct (Z.leb_spec (key x) (key y)) as [Hxy|Hxy].
    + constructor; [by constructor|].
      constructor; [done|].
      eapply Forall_impl; [exact Hy|]. unfold key_le. intros; lia.
    + constructor; [done|].
      rewrite insert_by_Permutation. constructor; [|done].
      unfold key_le. lia.
Qed.

Lemma sort_by_sorted l : StronglySorted (key_le key) (sort_by key l).
Proof.
  induction l as [|x l IH]; simpl; [constructor|].
  by apply insert_by_sorted.
Qed.



Lemma sort_by_keys_lt l :
  NoDup (key <$> l) → StronglySorted Z.lt (key <$> sort_by key l).
Proof.
  intros Hnd. rewrite <-(sort_by_Permutation l) in Hnd.
  pose proof (sort_by_sorted l) as Hs.
  induction Hs as [|x s Hs IH Hx]; simpl in *; [constructor|].
  apply NoDup_cons in Hnd as [Hin Hnd].
  constructor; [by apply IH|].
  apply Forall_fmap, Forall_forall. intros y Hy. simpl.
  rewrite Forall_forall in Hx. specialize (Hx y Hy). unfold key_le in Hx.
  assert (key x ≠ key y); [|lia].
  intros Heq. apply Hin. rewrite Heq. by apply list_elem_of_fmap_2.
Qed.

End sort_by.

(** ** Windows *)

Section slice.
Context {A : Type}.
Implicit Types (l : list A) (i j : nat) (n : Z).

Lemma length_slice l i n :
  (i + Z.to_nat n ≤ length l)%nat → length (slice l i n) = Z.to_nat n.
Proof. intros. unfold slice. rewrite length_take, length_drop. lia. Qed.

Lemma lookup_slice l i j n :
  (j < Z.to_nat n)%nat → slice l i n !! j = l !! (i + j)%nat.
Proof. intros. unfold slice. by rewrite lookup_take_lt, lookup_drop. Qed.

Lemma slice_sublist l i n : slice l i n `sublist_of` l.
Proof. unfold slice. etrans; [apply sublist_take|apply sublist_drop]. Qed.

Lemma head_slice l i n : 1 ≤ n → head (slice l i n) = l !! i.
Proof.
  intros. rewrite head_lookup, lookup_slice by lia. f_equal. lia.
Qed.

Lemma last_slice l i n :
  1 ≤ n → (i + Z.to_nat n ≤ length l)%nat →
  last (slice l i n) = l !! (i + Z.to_nat n - 1)%nat.
Proof.
  intros. rewrite last_lookup, length_slice by done.
  rewrite lookup_slice by lia. f_equal. lia.
Qed.

Lemma elem_of_range0 i (m : Z) : i ∈ range0 m ↔ Z.of_nat i < m.
Proof. unfold range0. rewrite elem_of_seq. lia. Qed.

Lemma range0_windows l i n :
  1 ≤ n →
  i ∈ range0 (Z.of_nat (length l) - n + 1) ↔ (i + Z.to_nat n ≤ length l)%nat.
Proof. intros. rewrite elem_of_range0. lia. Qed.

End slice.

(** ** Strictly increasing integer lists *)

Lemma sorted_lt_lookup (l : list Z) (a b : nat) (x y : Z) :
  StronglySorted Z.lt l → l !! a = Some x → l !! b = Some y →
  (a < b)%nat → x < y.
Proof.
  intros Hs. revert a b. induction Hs as [|z l Hs IH Hz]; intros a b Ha Hb Hab.
  - by rewrite lookup_nil in Ha.
  - destruct b as [|b]; [lia|]. simpl in Hb.
    destruct a as [|a]; simpl in Ha.
    + injection Ha as ->. rewrite Forall_forall in Hz. apply Hz.
      by eapply list_elem_of_lookup_2.
    + eapply (IH a b); [done..|lia].
Qed.

Lemma sorted_lt_lookup_inv (l : list Z) (a b : nat) (x y : Z) :
  StronglySorted Z.lt l → l !! a = Some x → l !! b = Some y →
  x < y → (a < b)%nat.
Proof.
  intros Hs Ha Hb Hxy.
  destruct (decide (a < b)%nat) as [|Hn]; [done|].
  destruct (decide (a = b)) as [->|].
  - rewrite Ha in Hb. injection Hb as ->. lia.
  - pose proof (sorted_lt_lookup l b a y x Hs Hb Ha). lia.
Qed.

(** Over a stretch of [d] positions the values grow by at least [d]. *)
Lemma sorted_lt_spread (l : list Z) (a d : nat) (x y : Z) :
  StronglySorted Z.lt l → l !! a = Some x → l !! (a + d)%nat = Some y →
  Z.of_nat d ≤ y - x.
Proof.
  intros Hs Ha. revert y. induction d as [|d IH]; intros y Hb.
  - replace (a + 0)%nat with a in Hb by lia. rewrite Ha in Hb.
    injection Hb as ->. lia.
  - destruct (lookup_lt_is_Some_2 l (a + d)%nat) as [z Hz].
    { apply lookup_lt_Some in Hb. lia. }
    specialize (IH z Hz).
    pose proof (sorted_lt_lookup l (a + d)%nat (a + S d)%nat z y Hs Hz Hb).
    lia.
Qed.

(** [n] consecutive integers that all occur in a strictly increasing list
    occupy [n] consecutive positions of it. *)
Lemma sorted_lt_run (l : list Z) (k : Z) (n : nat) :
  StronglySorted Z.lt l →
  (∀ j : nat, (j < n)%nat → k + Z.of_nat j ∈ l) →
  (0 < n)%nat →
  ∃ p : nat, ∀ j : nat, (j < n)%nat → l !! (p + j)%nat = Some (k + Z.of_nat j).
Proof.
  intros Hs Hin Hn.
  destruct (proj1 (list_elem_of_lookup l (k + Z.of_nat 0%nat)) (Hin 0%nat Hn)) as [p Hp].
  exists p. induction j as [|j IH]; intros Hj.
  - by replace (p + 0)%nat with p by lia.
  - specialize (IH ltac:(lia)).
    destruct (proj1 (list_elem_of_lookup l _) (Hin (S j) Hj)) as [q Hq].
    assert (p + j < q)%nat as Hlt.
    { eapply (sorted_lt_lookup_inv l); [done..|lia]. }
    destruct (lookup_lt_is_Some_2 l (p + S j)%nat) as [v Hv].
    { apply lookup_lt_Some in Hq. lia. }
    pose proof (sorted_lt_lookup l (p + j)%nat (p + S j)%nat _ v Hs IH Hv).
    destruct (decide (p + S j = q)%nat) as [->|].
    + done.
    + pose proof (sorted_lt_lookup l (p + S j)%nat q v _ Hs Hv Hq).
      rewrite Hv. f_equal. lia.
Qed.

(** ** The per-floor grouping *)

Lemma floors_get_append f g r d :
  floors_get f (floors_append g r d) =
    if decide (g = f) then Some (default [] (floors_get f d) ++ [r])
    else floors_get f d.
Proof.
  induction d as [|[g' rs] d IH]; simpl.
  - by destruct (decide (g = f)).
  - destruct (decide (g' = g)) as [->|Hg]; simpl.
    + by destruct (decide (g = f)).
    + rewrite IH. repeat case_decide; congruence.
Qed.

Lemma floors_append_keys g r d :
  (floors_append g r d).*1 = if decide (g ∈ d.*1) then d.*1 else d.*1 ++ [g].
Proof.
  induction d as [|[g' rs] d IH]; csimpl.
  - done.
  - destruct (decide (g' = g)) as [->|Hg]; csimpl.
    + rewrite decide_True; [done|left].
    + rewrite IH. destruct (decide (g ∈ d.*1)) as [Hin|Hin].
      * rewrite decide_True; [done|by right].
      * rewrite decide_False; [done|]. rewrite elem_of_cons. naive_solver.
Qed.

Lemma group_by_floor_snoc av r :
  group_by_floor (av ++ [r]) = floors_append (rfloor r) r (group_by_floor av).
Proof. unfold group_by_floor. by rewrite foldl_snoc. Qed.

Lemma group_by_floor_keys_NoDup av : NoDup (group_by_floor av).*1.
Proof.
  induction av as [|r av IH] using rev_ind; [constructor|].
  rewrite group_by_floor_snoc, floors_append_keys.
  case_decide as Hin; [done|].
  apply NoDup_app. split_and!; [done| |apply NoDup_singleton].
  intros x Hx ->%list_elem_of_singleton. done.
Qed.

Lemma floors_get_group f av :
  floors_get f (group_by_floor av) =
    match on_floor f av with [] => None | rs => Some rs end.
Proof.
  induction av as [|r av IH] using rev_ind; [done|].
  rewrite group_by_floor_snoc, floors_get_append, IH.
  unfold on_floor. rewrite filter_app, filter_cons, filter_nil.
  destruct (decide (rfloor r = f)) as [Hf|Hf].
  - by destruct (filter _ av).
  - by rewrite app_nil_r.
Qed.

Lemma elem_of_floors d f rs :
  NoDup d.*1 → (f, rs) ∈ d ↔ floors_get f d = Some rs.
Proof.
  induction d as [|[g rs'] d IH]; simpl; intros Hnd.
  - split; [by intros ?%elem_of_nil|done].
  - apply NoDup_cons in Hnd as [Hg Hnd]. rewrite elem_of_cons, (IH Hnd).
    destruct (decide (g = f)) as [->|Hne].
    + split; [|naive_solver]. intros [[= ->]|Hget]; [done|].
      apply IH in Hget; [|done]. destruct Hg.
      by apply (list_elem_of_fmap_2 fst) in Hget.
    + naive_solver.
Qed.

(** The dict holds exactly the non-empty floors, each with its rooms. *)
Lemma elem_of_group_by_floor av f rs :
  (f, rs) ∈ group_by_floor av ↔ rs = on_floor f av ∧ rs ≠ [].
Proof.
  rewrite elem_of_floors by apply group_by_floor_keys_NoDup.
  rewrite floors_get_group. destruct (on_floor f av); naive_solver.
Qed.

(** Its first key is the floor of the first available room. *)
Lemma group_by_floor_head r av :
  ∃ rest, group_by_floor (r :: av)
          = (rfloor r, on_floor (rfloor r) (r :: av)) :: rest.
Proof.
  induction av as [|x av [rest IH]] using rev_ind.
  - exists []. unfold on_floor. simpl. rewrite filter_cons, decide_True; done.
  - rewrite app_comm_cons, group_by_floor_snoc, IH. simpl.
    unfold on_floor. rewrite (filter_app _ (r :: av) [x]), (filter_cons _ x), filter_nil.
    destruct (decide (rfloor r = rfloor x)) as [Heq|Hne].
    + rewrite decide_True by done. eauto.
    + rewrite decide_False by done. rewrite app_nil_r. eauto.
Qed.

(** ** Scanning candidate windows for the first minimum *)

Lemma foldl_bind {S B C} (f : S → C → S) (g : B → list C) (l : list B) (s : S) :
  foldl f s (l ≫= g) = foldl (λ s x, foldl f s (g x)) s l.
Proof.
  revert s. induction l as [|x l IH]; intros s; [done|].
  by rewrite bind_cons, foldl_app, IH.
Qed.

Lemma same_floor_search_scan n av :
  same_floor_search n av = scan span_cost true Search_init (same_floor_windows n av).
Proof.
  unfold same_floor_search, scan, same_floor_windows. rewrite foldl_bind.
  generalize Search_init. induction (group_by_floor av) as [|e d IH]; intros st; [done|].
  simpl. rewrite <-IH. f_equal.
  unfold same_floor_floor, floor_windows. simpl.
  destruct (n <=? _); [|done]. unfold windows. by rewrite foldl_fmap.
Qed.

Lemma cross_floor_search_scan n av st :
  cross_floor_search n av st =
    scan box_cost false
         {| best_set := best_set st; min_cost := Infinity;
            found_same_floor := found_same_floor st |}
         (windows n (sort_by score av)).
Proof. unfold cross_floor_search, scan, windows. by rewrite foldl_fmap. Qed.

(** The scan keeps the first window of least cost among those cheaper than
    the starting [min_cost], or leaves the state alone when there is none. *)
Lemma scan_spec cost mark ws st :
  (scan cost mark st ws = st
   ∧ Forall (λ w, cost_lt (cost w) (min_cost st) = false) ws)
  ∨ (∃ k w, ws !! k = Some w
       ∧ scan cost mark st ws
         = {| best_set := w; min_cost := Finite (cost w);
              found_same_floor := mark || found_same_floor st |}
       ∧ cost_lt (cost w) (min_cost st) = true
       ∧ ∀ j w', ws !! j = Some w' →
           cost w ≤ cost w' ∧ ((j < k)%nat → cost w < cost w')).
Proof.
  revert st. induction ws as [|x ws IH]; intros st; [left; by split|].
  unfold scan. simpl. fold (scan cost mark (scan_step cost mark st x) ws).
  unfold scan_step. destruct (cost_lt (cost x) (min_cost st)) eqn:Hx.
  - right. set (st1 := mkSearch _ _ _).
    destruct (IH st1) as [[Heq Hall]|(k & w & Hk & Heq & Hlt & Hmin)].
    + exists 0%nat, x. split_and!; [done|by rewrite Heq|done|].
      intros [|j] w' Hj; simpl in Hj.
      * injection Hj as <-. split; lia.
      * rewrite Forall_forall in Hall.
        specialize (Hall w' (list_elem_of_lookup_2 _ _ _ Hj)). simpl in Hall.
        split; lia.
    + exists (S k), w. simpl in Hlt. split_and!; [done| |..].
      * rewrite Heq. simpl. by destruct mark.
      * destruct (min_cost st); simpl in *; [lia|done].
      * intros [|j] w' Hj; simpl in Hj.
        -- injection Hj as <-. split; lia.
        -- destruct (Hmin j w' Hj). split; [done|lia].
  - destruct (IH st) as [[Heq Hall]|(k & w & Hk & Heq & Hlt & Hmin)].
    + left. split; [done|by constructor].
    + right. exists (S k), w. split_and!; [done..|].
      intros [|j] w' Hj; simpl in Hj.
      * injection Hj as <-. destruct (min_cost st); simpl in *; [lia|done].
      * destruct (Hmin j w' Hj). split; [done|lia].
Qed.

(** Starting from [float('inf')], any non-empty candidate list yields one. *)
Lemma scan_from_inf cost mark ws st :
  min_cost st = Infinity → ws ≠ [] →
  ∃ k w, ws !! k = Some w
    ∧ scan cost mark st ws
      = {| best_set := w; min_cost := Finite (cost w);
           found_same_floor := mark || found_same_floor st |}
    ∧ ∀ j w', ws !! j = Some w' →
        cost w ≤ cost w' ∧ ((j < k)%nat → cost w < cost w').
Proof.
  intros Hinf Hne.
  destruct (scan_spec cost mark ws st) as [[_ Hall]|(k & w & Hk & Heq & _ & Hmin)].
  - destruct ws as [|x ws]; [done|]. apply Forall_cons in Hall as [Hx _].
    by rewrite Hinf in Hx.
  - eauto.
Qed.

(** ** References and the available list *)

Lemma submseteq_NoDup {A} (l k : list A) : l ⊆+ k → NoDup k → NoDup l.
Proof.
  intros (l2 & Hsub & Hperm)%submseteq_sublist_l Hk.
  rewrite <-Hperm in Hk. by eapply sublist_NoDup.
Qed.

Lemma elem_of_enumerate rs i r : (i, r) ∈ enumerate rs ↔ rs !! i = Some r.
Proof.
  unfold enumerate. rewrite elem_of_lookup_imap. split.
  - by intros (j & y & [= -> ->] & Hj).
  - intros Hi. by exists i, r.
Qed.

Lemma enumerate_positions rs : (enumerate rs).*1 = seq 0 (length rs).
Proof.
  unfold enumerate. rewrite fmap_imap.
  rewrite <-(list_fmap_id (seq 0 (length rs))). apply (imap_seq_0 rs id).
Qed.

Lemma elem_of_available_rooms h i r :
  (i, r) ∈ available_rooms h ↔ rooms h !! i = Some r ∧ is_booked r = false.
Proof.
  unfold available_rooms. rewrite list_elem_of_filter, elem_of_enumerate. simpl. tauto.
Qed.

Lemma filter_imap_unbooked (g : nat → nat) rs :
  snd <$> filter (λ r : Ref, is_booked r.2 = false) (imap (λ i r, (g i, r)) rs)
  = filter (λ r, is_booked r = false) rs.
Proof.
  revert g. induction rs as [|x rs IH]; intros g; [done|].
  rewrite imap_cons, !filter_cons. simpl.
  destruct (decide (is_booked x = false)); csimpl; [f_equal|]; apply (IH (g ∘ S)).
Qed.

(** The available list holds exactly the rooms with [is_booked = False]. *)
Lemma available_rooms_unbooked h :
  snd <$> available_rooms h = filter (λ r, is_booked r = false) (rooms h).
Proof. apply (filter_imap_unbooked id). Qed.

Lemma length_available_rooms h :
  length (available_rooms h) = length (filter (λ r, is_booked r = false) (rooms h)).
Proof. by rewrite <-available_rooms_unbooked, length_fmap. Qed.

Lemma available_rooms_NoDup h : NoDup (available_rooms h).*1.
Proof.
  apply (sublist_NoDup _ (enumerate (rooms h)).*1).
  - rewrite enumerate_positions. apply NoDup_seq.
  - apply fmap_sublist, sublist_filter.
Qed.

(** ** Windows visited by the two stages *)

Lemma elem_of_windows n s w :
  1 ≤ n →
  w ∈ windows n s ↔ ∃ i : nat, (i + Z.to_nat n ≤ length s)%nat ∧ w = slice s i n.
Proof.
  intros Hn. unfold windows. rewrite list_elem_of_fmap.
  split; intros (i & H1 & H2); exists i.
  - by apply range0_windows in H2.
  - by rewrite range0_windows.
Qed.

Lemma lookup_windows n s (i : nat) :
  1 ≤ n → (i + Z.to_nat n ≤ length s)%nat →
  windows n s !! i = Some (slice s i n).
Proof.
  intros Hn Hi. unfold windows, range0.
  rewrite list_lookup_fmap, lookup_seq_lt by lia. done.
Qed.


Lemma windows_nonempty n s :
  1 ≤ n ≤ Z.of_nat (length s) → windows n s ≠ [].
Proof.
  intros Hn Hnil. pose proof (lookup_windows n s 0) as H0.
  rewrite Hnil in H0. by discriminate H0; lia.
Qed.

(** Every window of the same-floor stage holds [n] available rooms of one
    floor, taken from that floor's list sorted by index. *)
Lemma elem_of_same_floor_windows n av w :
  1 ≤ n →
  w ∈ same_floor_windows n av ↔
  ∃ f (i : nat), n ≤ Z.of_nat (length (on_floor f av))
    ∧ (i + Z.to_nat n ≤ length (on_floor f av))%nat
    ∧ w = slice (sort_by rindex (on_floor f av)) i n.
Proof.
  intros Hn. unfold same_floor_windows. rewrite list_elem_of_bind. split.
  - intros ([f rs] & Hw & [-> Hne]%elem_of_group_by_floor).
    unfold floor_windows in Hw. simpl in Hw.
    destruct (Z.leb_spec n (Z.of_nat (length (on_floor f av)))) as [Hle|];
      [|by apply elem_of_nil in Hw].
    apply elem_of_windows in Hw as (i & Hi & ->); [|done].
    rewrite length_sort_by in Hi. eauto.
  - intros (f & i & Hle & Hi & ->). exists (f, on_floor f av). split.
    + unfold floor_windows. simpl. rewrite (proj2 (Z.leb_le _ _) Hle).
      apply elem_of_windows; [done|]. exists i. by rewrite length_sort_by.
    + apply elem_of_group_by_floor. split; [done|].
      intros Hnil. rewrite Hnil in Hle. simpl in Hle. lia.
Qed.

Lemma same_floor_windows_nonempty n av :
  1 ≤ n →
  same_floor_windows n av ≠ [] ↔ ∃ f, n ≤ Z.of_nat (length (on_floor f av)).
Proof.
  intros Hn. split.
  - destruct (same_floor_windows n av) as [|w ws] eqn:Hws; [done|]. intros _.
    assert (w ∈ same_floor_windows n av) as Hw by (rewrite Hws; left).
    apply elem_of_same_floor_windows in Hw as (f & _ & Hle & _); eauto.
  - intros [f Hle] Hnil.
    assert (slice (sort_by rindex (on_floor f av)) 0 n ∈ same_floor_windows n av) as Hw.
    { apply elem_of_same_floor_windows; [done|]. exists f, 0%nat. split_and!; [done|lia|done]. }
    rewrite Hnil in Hw. by apply elem_of_nil in Hw.
Qed.

Lemma on_floor_submseteq f av : on_floor f av ⊆+ av.
Proof. apply sublist_submseteq, sublist_filter. Qed.

Lemma same_floor_window_valid n av w :
  1 ≤ n → w ∈ same_floor_windows n av → length w = Z.to_nat n ∧ w ⊆+ av.
Proof.
  intros Hn (f & i & Hle & Hi & ->)%elem_of_same_floor_windows; [|done]. split.
  - apply length_slice. by rewrite length_sort_by.
  - etrans; [apply sublist_submseteq, slice_sublist|].
    rewrite sort_by_Permutation. apply on_floor_submseteq.
Qed.

Lemma cross_floor_window_valid n av w :
  1 ≤ n → w ∈ windows n (sort_by score av) → length w = Z.to_nat n ∧ w ⊆+ av.
Proof.
  intros Hn (i & Hi & ->)%elem_of_windows; [|done]. split.
  - by apply length_slice.
  - etrans; [apply sublist_submseteq, slice_sublist|].
    by rewrite sort_by_Permutation.
Qed.

(** ** The commit step *)

Lemma lookup_mark_booked rs chosen i :
  mark_booked rs chosen !! i =
    if decide (i ∈ chosen.*1) then set_is_booked true <$> rs !! i else rs !! i.
Proof.
  unfold mark_booked. revert rs.
  induction chosen as [|c cs IH]; intros rs; csimpl.
  - done.
  - rewrite IH, list_lookup_alter. clear IH.
    destruct (decide (c.1 = i)) as [<-|Hne].
    + rewrite (decide_True (P := c.1 ∈ c.1 :: cs.*1)) by left.
      case_decide; [|done]. by destruct (rs !! c.1).
    + destruct (decide (i ∈ cs.*1)) as [Hin|Hin].
      * by rewrite decide_True by (by right).
      * rewrite decide_False; [done|]. rewrite elem_of_cons. naive_solver.
Qed.

Lemma length_mark_booked rs chosen : length (mark_booked rs chosen) = length rs.
Proof.
  unfold mark_booked. revert rs.
  induction chosen as [|c cs IH]; intros rs; simpl; [done|].
  by rewrite IH, length_alter.
Qed.

Lemma place_mark_booked rs chosen : place <$> mark_booked rs chosen = place <$> rs.
Proof.
  apply list_eq. intros i.
  rewrite !list_lookup_fmap, lookup_mark_booked.
  case_decide; [|done]. by destruct (rs !! i).
Qed.

(** ** The two stages of the search *)

Lemma same_floor_search_none n av :
  1 ≤ n → (∀ f, Z.of_nat (length (on_floor f av)) < n) →
  same_floor_search n av = Search_init.
Proof.
  intros Hn Hall. rewrite same_floor_search_scan.
  destruct (same_floor_windows n av) as [|w ws] eqn:Hws; [done|].
  assert (same_floor_windows n av ≠ []) as Hne by (by rewrite Hws).
  apply same_floor_windows_nonempty in Hne as [f Hf]; [|done].
  specialize (Hall f). lia.
Qed.

(** Some floor has [n] available rooms: the same-floor stage decides, and
    its answer is the first cheapest window in its scan order. *)
Lemma search_same_floor n av :
  1 ≤ n → (∃ f, n ≤ Z.of_nat (length (on_floor f av))) →
  ∃ k w, same_floor_windows n av !! k = Some w
    ∧ search n av
      = ({| best_set := w; min_cost := Finite (span_cost w);
            found_same_floor := true |}, [])
    ∧ ∀ j w', same_floor_windows n av !! j = Some w' →
        span_cost w ≤ span_cost w' ∧ ((j < k)%nat → span_cost w < span_cost w').
Proof.
  intros Hn Hf. apply same_floor_windows_nonempty in Hf; [|done].
  destruct (scan_from_inf span_cost true _ Search_init eq_refl Hf)
    as (k & w & Hk & Heq & Hmin).
  exists k, w. split_and!; [done| |done].
  unfold search. by rewrite same_floor_search_scan, Heq.
Qed.

(** No floor has [n] available rooms: the cross-floor stage decides, and
    its answer is the first cheapest window of the score-sorted list. *)
Lemma search_cross_floor n av :
  1 ≤ n ≤ Z.of_nat (length av) →
  (∀ f, Z.of_nat (length (on_floor f av)) < n) →
  ∃ k w, windows n (sort_by score av) !! k = Some w
    ∧ search n av
      = ({| best_set := w; min_cost := Finite (box_cost w);
            found_same_floor := false |}, [InfoCrossFloor])
    ∧ ∀ j w', windows n (sort_by score av) !! j = Some w' →
        box_cost w ≤ box_cost w' ∧ ((j < k)%nat → box_cost w < box_cost w').
Proof.
  intros Hn Hall.
  assert (windows n (sort_by score av) ≠ []) as Hne.
  { apply windows_nonempty. by rewrite length_sort_by. }
  destruct (scan_from_inf box_cost false _
              {| best_set := []; min_cost := Infinity; found_same_floor := false |}
              eq_refl Hne) as (k & w & Hk & Heq & Hmin).
  exists k, w. split_and!; [done| |done].
  unfold search. rewrite same_floor_search_none by (done || lia).
  simpl. rewrite cross_floor_search_scan. simpl in *. by rewrite Heq.
Qed.

(** With [n >= 1] and at least [n] rooms available the search selects a
    window of exactly [n] available rooms, at a finite cost. *)
Lemma floors_dec n av :
  1 ≤ n →
  (∃ f, n ≤ Z.of_nat (length (on_floor f av)))
  ∨ (∀ f, Z.of_nat (length (on_floor f av)) < n).
Proof.
  intros Hn. pose proof (same_floor_windows_nonempty n av Hn) as Hiff.
  destruct (same_floor_windows n av) as [|w ws].
  - right. intros f. destruct (Z.lt_ge_cases (Z.of_nat (length (on_floor f av))) n); [done|].
    destruct (proj2 Hiff); eauto.
  - left. by apply Hiff.
Qed.

Lemma search_selects n av :
  1 ≤ n ≤ Z.of_nat (length av) →
  ∃ w c out, search n av
      = ({| best_set := w; min_cost := Finite c;
            found_same_floor := bool_decide (out = []) |}, out)
    ∧ length w = Z.to_nat n ∧ w ⊆+ av
    ∧ (out = [] ∨ out = [InfoCrossFloor]).
Proof.
  intros Hn. destruct (floors_dec n av) as [Hf|Hf]; [lia|..].
  - destruct (search_same_floor n av) as (k & w & Hk & Heq & _); [lia|done|].
    destruct (same_floor_window_valid n av w) as [Hlen Hsub];
      [lia|by eapply list_elem_of_lookup_2|].
    by exists w, (span_cost w), []; split_and!; [..|left].
  - destruct (search_cross_floor n av) as (k & w & Hk & Heq & _); [done..|].
    destruct (cross_floor_window_valid n av w) as [Hlen Hsub];
      [lia|by eapply list_elem_of_lookup_2|].
    by exists w, (box_cost w), [InfoCrossFloor]; split_and!; [..|right].
Qed.

(** ** [book_rooms] *)

Lemma book_rooms_invalid h n : ¬ (1 ≤ n ≤ 5) → book_rooms h n = (h, [ErrInvalidCount]).
Proof.
  intros Hn. unfold book_rooms.
  destruct (Z.leb_spec 1 n), (Z.leb_spec n 5); simpl; try done; lia.
Qed.

Lemma book_rooms_not_enough h n :
  1 ≤ n ≤ 5 → Z.of_nat (length (available_rooms h)) < n →
  book_rooms h n = (h, [ErrNotEnough]).
Proof.
  intros Hn Hlen. unfold book_rooms.
  destruct (Z.leb_spec 1 n), (Z.leb_spec n 5); simpl; try lia.
  by destruct (Z.ltb_spec (Z.of_nat (length (available_rooms h))) n); [|lia].
Qed.

Lemma book_rooms_search h n :
  1 ≤ n ≤ 5 → n ≤ Z.of_nat (length (available_rooms h)) →
  book_rooms h n = commit h (search n (available_rooms h)).1 (search n (available_rooms h)).2.
Proof.
  intros Hn Hlen. unfold book_rooms.
  destruct (Z.leb_spec 1 n), (Z.leb_spec n 5); simpl; try lia.
  destruct (Z.ltb_spec (Z.of_nat (length (available_rooms h))) n); [lia|].
  by destruct (search n (available_rooms h)).
Qed.

(** What a valid call with enough inventory does: it books a window [w] of
    [n] available rooms and prints their numbers and the cost. *)
Lemma book_rooms_success h n :
  1 ≤ n ≤ 5 → n ≤ Z.of_nat (length (available_rooms h)) →
  ∃ w c out,
    search n (available_rooms h)
      = ({| best_set := w; min_cost := Finite c;
            found_same_floor := bool_decide (out = []) |}, out)
    ∧ length w = Z.to_nat n ∧ w ⊆+ available_rooms h
    ∧ (out = [] ∨ out = [InfoCrossFloor])
    ∧ book_rooms h n
      = ({| rooms := mark_booked (rooms h) w; last_booked_ids := rnumber <$> w |},
         out ++ [Success (rnumber <$> w); TravelCost (Finite c); Grid]).
Proof.
  intros Hn Hlen.
  destruct (search_selects n (available_rooms h)) as (w & c & out & Hs & Hw & Hsub & Hout); [lia|].
  exists w, c, out. split_and!; [done..|].
  rewrite book_rooms_search, Hs by done. unfold commit. simpl.
  destruct w as [|x w]; [simpl in Hw; lia|done].
Qed.

Lemma success_messages w c out m :
  out = [] ∨ out = [InfoCrossFloor] →
  m ∈ out ++ [Success (rnumber <$> w); TravelCost (Finite c); Grid] →
  m ≠ ErrInvalidCount ∧ m ≠ ErrNotEnough ∧ m ≠ ErrNoArrangement.
Proof. intros [-> | ->] Hm; msg_in Hm. Qed.

(** ** Validation (§4.1) *)

(** C2: [book_rooms h n] reports the invalid-count error exactly when
    [n < 1] or [n > 5]; for [1 <= n <= 5] it reports the not-enough-rooms
    error exactly when the number of rooms with [is_booked = False] is less
    than [n]; otherwise it runs the search and commits its result. *)
Theorem book_rooms_validation h n :
  let unbooked := Z.of_nat (length (filter (λ r, is_booked r = false) (rooms h))) in
  (ErrInvalidCount ∈ (book_rooms h n).2 ↔ n < 1 ∨ 5 < n)
  ∧ (n < 1 ∨ 5 < n → book_rooms h n = (h, [ErrInvalidCount]))
  ∧ (1 ≤ n ≤ 5 →
       (ErrNotEnough ∈ (book_rooms h n).2 ↔ unbooked < n)
       ∧ (unbooked < n → book_rooms h n = (h, [ErrNotEnough]))
       ∧ (n ≤ unbooked →
            book_rooms h n
            = commit h (search n (available_rooms h)).1
                       (search n (available_rooms h)).2))
  ∧ (ErrNotEnough ∈ (book_rooms h n).2 → 1 ≤ n ≤ 5).
Proof.
  intros unbooked. unfold unbooked. rewrite <-length_available_rooms. clear unbooked.
  destruct (decide (1 ≤ n ≤ 5)) as [Hn|Hn].
  - destruct (Z.lt_ge_cases (Z.of_nat (length (available_rooms h))) n) as [Hlen|Hlen].
    + rewrite book_rooms_not_enough by done. simpl.
      split_and!; try done; try lia.
      * split; [intros Hm; msg_in Hm|lia].
      * intros _. split_and!; [|done|lia]. split; [done|left].
    + destruct (book_rooms_success h n Hn Hlen) as (w & c & out & _ & _ & _ & Hout & Heq).
      assert (∀ m, m ∈ (book_rooms h n).2 → m ≠ ErrInvalidCount ∧ m ≠ ErrNotEnough) as Hm.
      { rewrite Heq. intros m ?%(success_messages w c out); naive_solver. }
      split_and!.
      * split; [intros ?%Hm; naive_solver|lia].
      * lia.
      * intros _. split_and!.
        -- split; [intros ?%Hm; naive_solver|lia].
        -- lia.
        -- intros _. by apply book_rooms_search.
      * done.
  - rewrite book_rooms_invalid by done. simpl. split_and!; try done; try lia.
    + split; [lia|left].
    + intros Hm. msg_in Hm.
Qed.

(** C3: a call that fails changes nothing: the rooms (with their booked
    flags) and the last-booked record are the ones from before the call.
    This covers all three error messages. *)
Theorem book_rooms_failure_unchanged h n :
  ErrInvalidCount ∈ (book_rooms h n).2
  ∨ ErrNotEnough ∈ (book_rooms h n).2
  ∨ ErrNoArrangement ∈ (book_rooms h n).2 →
  (book_rooms h n).1 = h.
Proof.
  intros Hfail.
  destruct (decide (1 ≤ n ≤ 5)) as [Hn|Hn]; [|by rewrite book_rooms_invalid].
  destruct (Z.lt_ge_cases (Z.of_nat (length (available_rooms h))) n) as [Hlen|Hlen];
    [by rewrite book_rooms_not_enough|].
  destruct (book_rooms_success h n Hn Hlen) as (w & c & out & _ & _ & _ & Hout & Heq).
  pose proof (success_messages w c out) as Hmsg.
  rewrite Heq in Hfail. simpl in Hfail.
  destruct Hfail as [?%Hmsg|[?%Hmsg|?%Hmsg]]; naive_solver.
Qed.

Lemma book_rooms_failure_unchanged_witness :
  (book_rooms HotelSystem_init 6).1 = HotelSystem_init.
Proof.
  apply (book_rooms_failure_unchanged HotelSystem_init 6).
  left. vm_compute. left.
Defined.

(** The other failure: six rooms booked away, five requested, four left. *)
Example not_enough_unchanged :
  let h := occupy (λ f i, negb ((f =? 1) && (i <? 4))) in
  book_rooms h 5 = (h, [ErrNotEnough]).
Proof. by vm_compute. Qed.

(** ** Which stage decides (§4.2, §4.3) *)

(** C4: with [1 <= n <= 5] and at least [n] rooms available, the cross-floor
    search runs exactly when no floor has [n] available rooms; when some
    floor has, the result is a window of the same-floor search; and when
    every floor of the hotel has exactly [n - 1] available rooms the
    cross-floor search runs. *)
Theorem cross_floor_iff_no_floor h n :
  1 ≤ n ≤ 5 → n ≤ Z.of_nat (length (available_rooms h)) →
  (InfoCrossFloor ∈ (book_rooms h n).2 ↔ ∀ f, Z.of_nat (available_on h f) < n)
  ∧ ((∃ f, n ≤ Z.of_nat (available_on h f)) →
       ∃ w, w ∈ same_floor_windows n (available_rooms h)
         ∧ (book_rooms h n).2
           = [Success (rnumber <$> w); TravelCost (Finite (span_cost w)); Grid])
  ∧ ((∀ f, Z.of_nat (available_on h f) < n) →
       ∃ w, w ∈ windows n (sort_by score (available_rooms h))
         ∧ (book_rooms h n).2
           = [InfoCrossFloor; Success (rnumber <$> w);
              TravelCost (Finite (box_cost w)); Grid])
  ∧ ((∀ r, r ∈ rooms h → Z.of_nat (available_on h (floor r)) = n - 1) →
       InfoCrossFloor ∈ (book_rooms h n).2).
Proof.
  intros Hn Hlen. set (av := available_rooms h) in *.
  assert ((∃ f, n ≤ Z.of_nat (available_on h f)) →
       ∃ w, w ∈ same_floor_windows n av
         ∧ (book_rooms h n).2
           = [Success (rnumber <$> w); TravelCost (Finite (span_cost w)); Grid]) as Hsame.
  { intros Hf. destruct (search_same_floor n av) as (k & w & Hk & Heq & _); [lia|done|].
    exists w. split; [by eapply list_elem_of_lookup_2|].
    rewrite book_rooms_search by done. fold av. rewrite Heq. unfold commit. simpl.
    destruct (same_floor_window_valid n av w) as [Hw _];
      [lia|by eapply list_elem_of_lookup_2|].
    destruct w; [simpl in Hw; lia|done]. }
  assert ((∀ f, Z.of_nat (available_on h f) < n) →
       ∃ w, w ∈ windows n (sort_by score av)
         ∧ (book_rooms h n).2
           = [InfoCrossFloor; Success (rnumber <$> w);
              TravelCost (Finite (box_cost w)); Grid]) as Hcross.
  { intros Hf. destruct (search_cross_floor n av) as (k & w & Hk & Heq & _); [lia|done|].
    exists w. split; [by eapply list_elem_of_lookup_2|].
    rewrite book_rooms_search by done. fold av. rewrite Heq. unfold commit. simpl.
    destruct (cross_floor_window_valid n av w) as [Hw _];
      [lia|by eapply list_elem_of_lookup_2|].
    destruct w; [simpl in Hw; lia|done]. }
  assert (InfoCrossFloor ∈ (book_rooms h n).2 ↔ ∀ f, Z.of_nat (available_on h f) < n) as Hiff.
  { split.
    - intros Hin. destruct (floors_dec n av) as [Hf|Hf]; [lia| |done].
      destruct (Hsame Hf) as (w & _ & Heq). rewrite Heq in Hin. msg_in Hin.
    - intros Hf. destruct (Hcross Hf) as (w & _ & ->). left. }
  split_and!; [done..|].
  intros Hall. apply Hiff. intros f. unfold available_on.
  destruct (filter _ (available_rooms h)) as [|[i r] l] eqn:Hfl; [simpl; lia|].
  assert ((i, r) ∈ filter (λ r : Ref, rfloor r = f) (available_rooms h)) as Hir
    by (rewrite Hfl; left).
  apply list_elem_of_filter in Hir as [Hfr [Hr _]%elem_of_available_rooms].
  specialize (Hall r (list_elem_of_lookup_2 _ _ _ Hr)).
  unfold available_on in Hall. unfold rfloor in Hfr. simpl in Hfr.
  rewrite Hfr, Hfl in Hall. lia.
Qed.

(** One available room on each floor (index 0) and a request for two:
    every floor has exactly [n - 1 = 1] available room, ten overall. *)
Lemma cross_floor_iff_no_floor_witness :
  InfoCrossFloor ∈ (book_rooms (occupy (λ f i, negb (i =? 0))) 2).2.
Proof.
  apply (cross_floor_iff_no_floor (occupy (λ f i, negb (i =? 0))) 2);
    [lia|by vm_compute|].
  apply Forall_forall. eapply bool_decide_unpack. by vm_compute.
Defined.

(** ** The four ways a call can go *)

Lemma commit_window h w c b out :
  w ≠ [] →
  commit h {| best_set := w; min_cost := Finite c; found_same_floor := b |} out
  = booking h w c out.
Proof. intros Hw. unfold commit, booking. simpl. by destruct w. Qed.

Lemma length_nonempty {A} (w : list A) n : 1 ≤ n → length w = Z.to_nat n → w ≠ [].
Proof. intros Hn Hw ->. simpl in Hw. lia. Qed.

Lemma book_rooms_cases h n : book_rooms_case h n.
Proof.
  destruct (decide (1 ≤ n ≤ 5)) as [Hn|Hn];
    [|by apply case_invalid; [|apply book_rooms_invalid]].
  destruct (Z.lt_ge_cases (Z.of_nat (length (available_rooms h))) n) as [Hlen|Hlen];
    [by apply case_not_enough; [..|apply book_rooms_not_enough]|].
  destruct (floors_dec n (available_rooms h)) as [Hf|Hf]; [lia|..].
  - destruct (search_same_floor n (available_rooms h)) as (k & w & Hk & Heq & Hmin);
      [lia|done|].
    apply (case_same_floor h n k w); [done..|by split|].
    rewrite book_rooms_search, Heq by done. apply commit_window.
    apply (length_nonempty _ n); [lia|].
    by eapply same_floor_window_valid; [|eapply list_elem_of_lookup_2]; [lia|].
  - destruct (search_cross_floor n (available_rooms h)) as (k & w & Hk & Heq & Hmin);
      [lia|done|].
    apply (case_cross_floor h n k w); [done..|by split|].
    rewrite book_rooms_search, Heq by done. apply commit_window.
    apply (length_nonempty _ n); [lia|].
    by eapply cross_floor_window_valid; [|eapply list_elem_of_lookup_2]; [lia|].
Qed.

(** A committed window: [n] distinct room objects, all of them available. *)
Lemma window_refs h n w :
  length w = Z.to_nat n → w ⊆+ available_rooms h →
  NoDup w.*1
  ∧ ∀ i r, (i, r) ∈ w → rooms h !! i = Some r ∧ is_booked r = false.
Proof.
  intros Hlen Hsub. split.
  - eapply submseteq_NoDup; [by apply fmap_submseteq|apply available_rooms_NoDup].
  - intros i r Hir. apply elem_of_available_rooms. by eapply elem_of_submseteq.
Qed.

(** What a booking does to the room list. *)
Lemma booking_rooms h w c out :
  (∀ i r, (i, r) ∈ w → rooms h !! i = Some r) →
  (∀ i r, (i, r) ∈ w →
     rooms (booking h w c out).1 !! i = Some (set_is_booked true r))
  ∧ (∀ i, i ∉ w.*1 → rooms (booking h w c out).1 !! i = rooms h !! i)
  ∧ length (rooms (booking h w c out).1) = length (rooms h).
Proof.
  intros Hw. unfold booking. cbn [fst rooms]. split_and!.
  - intros i r Hir. rewrite lookup_mark_booked, decide_True.
    + by rewrite (Hw i r Hir).
    + by apply (list_elem_of_fmap_2 fst) in Hir.
  - intros i Hi. by rewrite lookup_mark_booked, decide_False.
  - apply length_mark_booked.
Qed.

(** ** The bounding-box cost (§4.3, glossary) *)

Lemma foldl_max_spec x l : is_max (foldl Z.max x l) (x :: l).
Proof.
  revert x. induction l as [|y l IH]; intros x; simpl.
  - split; [left|]. intros z ->%list_elem_of_singleton. lia.
  - destruct (IH (Z.max x y)) as [Hin Hle]. split.
    + apply elem_of_cons in Hin as [Hm|Hin]; [|by do 2 right].
      rewrite Hm. destruct (Z.max_spec x y) as [[_ ->]|[_ ->]]; [right|]; left.
    + intros z Hz. rewrite !elem_of_cons in Hz.
      destruct Hz as [->|[->|Hz]].
      * etrans; [|apply Hle; left]. lia.
      * etrans; [|apply Hle; left]. lia.
      * apply Hle. by right.
Qed.

Lemma foldl_min_spec x l : is_min (foldl Z.min x l) (x :: l).
Proof.
  revert x. induction l as [|y l IH]; intros x; simpl.
  - split; [left|]. intros z ->%list_elem_of_singleton. lia.
  - destruct (IH (Z.min x y)) as [Hin Hle]. split.
    + apply elem_of_cons in Hin as [Hm|Hin]; [|by do 2 right].
      rewrite Hm. destruct (Z.min_spec x y) as [[_ ->]|[_ ->]]; [|right]; left.
    + intros z Hz. rewrite !elem_of_cons in Hz.
      destruct Hz as [->|[->|Hz]].
      * etrans; [apply Hle; left|]. lia.
      * etrans; [apply Hle; left|]. lia.
      * apply Hle. by right.
Qed.

Lemma py_max_spec l : l ≠ [] → is_max (py_max l) l.
Proof. destruct l; [done|]. intros _. apply foldl_max_spec. Qed.

Lemma py_min_spec l : l ≠ [] → is_min (py_min l) l.
Proof. destruct l; [done|]. intros _. apply foldl_min_spec. Qed.



(** The loop's [total_cost] is the bounding-box cost, and the only one. *)
Lemma box_cost_spec w : w ≠ [] → bounding_box_cost w (box_cost w).
Proof.
  intros Hw.
  exists (py_max (rfloor <$> w)), (py_min (rfloor <$> w)),
         (py_max (rindex <$> w)), (py_min (rindex <$> w)).
  split_and!; [apply py_max_spec|apply py_min_spec|apply py_max_spec|apply py_min_spec|];
    try by destruct w.
  unfold box_cost. lia.
Qed.




(** ** A successful call (§4.4) *)

(** C6: with [1 <= n <= 5] and at least [n] rooms available the call books
    exactly [n] distinct available rooms; the search never leaves [best_set]
    empty, so the no-arrangement message is not printed. *)
Theorem book_rooms_books_exactly_n h n :
  1 ≤ n ≤ 5 → n ≤ Z.of_nat (length (available_rooms h)) →
  ∃ (w : list Ref) (c : Z) (out : list Message),
    Z.of_nat (length w) = n
    ∧ NoDup w.*1
    ∧ (∀ r, r ∈ w → r ∈ available_rooms h)
    ∧ best_set (search n (available_rooms h)).1 = w
    ∧ book_rooms h n = booking h w c out
    ∧ ErrNoArrangement ∉ (book_rooms h n).2.
Proof.
  intros Hn Hlen.
  destruct (book_rooms_success h n Hn Hlen)
    as (w & c & out & Hs & Hw & Hsub & Hout & Heq).
  destruct (window_refs h n w Hw Hsub) as [Hnd _].
  exists w, c, out. split_and!; [lia|done| |by rewrite Hs|done|].
  - intros r Hr. by eapply elem_of_submseteq.
  - rewrite Heq. intros ?%(success_messages w c out); naive_solver.
Qed.

Lemma book_rooms_books_exactly_n_witness :
  (ErrNoArrangement ∉ (book_rooms HotelSystem_init 3).2)
  ∧ length (last_booked_ids (book_rooms HotelSystem_init 3).1) = 3%nat.
Proof.
  destruct (book_rooms_books_exactly_n HotelSystem_init 3)
    as (w & c & out & Hw & _ & _ & _ & Heq & Hno); [lia|by vm_compute|].
  split; [exact Hno|]. rewrite Heq. unfold booking. cbn [fst last_booked_ids].
  rewrite length_fmap. lia.
Defined.

(** C7: after a successful call the rooms chosen are [n] distinct objects
    that were available; each of them now has [is_booked = true] and its
    floor, index and number as before, every other room is untouched, and
    the last-booked record is the list of the chosen rooms' numbers. *)
Theorem book_rooms_commit_frame h n ids :
  Success ids ∈ (book_rooms h n).2 →
  ∃ w : list Ref,
    Z.of_nat (length w) = n
    ∧ NoDup w.*1
    ∧ ids = rnumber <$> w
    ∧ last_booked_ids (book_rooms h n).1 = rnumber <$> w
    ∧ (∀ i r, (i, r) ∈ w →
         rooms h !! i = Some r ∧ is_booked r = false
         ∧ ∃ r', rooms (book_rooms h n).1 !! i = Some r'
                 ∧ is_booked r' = true
                 ∧ floor r' = floor r ∧ index r' = index r ∧ number r' = number r)
    ∧ (∀ i, i ∉ w.*1 → rooms (book_rooms h n).1 !! i = rooms h !! i)
    ∧ length (rooms (book_rooms h n).1) = length (rooms h).
Proof.
  intros Hin.
  destruct (decide (1 ≤ n ≤ 5)) as [Hn|Hn];
    [|rewrite book_rooms_invalid in Hin by done; msg_in Hin].
  destruct (Z.lt_ge_cases (Z.of_nat (length (available_rooms h))) n) as [Hlen|Hlen];
    [rewrite book_rooms_not_enough in Hin by done; msg_in Hin|].
  destruct (book_rooms_success h n Hn Hlen)
    as (w & c & out & _ & Hw & Hsub & Hout & Heq).
  destruct (window_refs h n w Hw Hsub) as [Hnd Hav].
  destruct (booking_rooms h w c out) as (Hset & Hother & Hlength);
    [intros i r Hir; by apply Hav|].
  rewrite Heq in Hin |- *. exists w. split_and!; [lia|done| |done| |done..].
  - unfold booking in Hin. simpl in Hin.
    destruct Hout as [-> | ->]; simpl in Hin;
      rewrite ?elem_of_cons, elem_of_nil in Hin;
      destruct Hin as [Hin|Hin]; try discriminate Hin;
      intuition (try discriminate; congruence).
  - intros i r Hir. destruct (Hav i r Hir). split_and!; [done..|].
    exists (set_is_booked true r). split; [by apply Hset|].
    split_and!; reflexivity.
Qed.

Lemma book_rooms_commit_frame_witness :
  ∃ w : list Ref,
    Z.of_nat (length w) = 3
    ∧ [101; 102; 103] = rnumber <$> w
    ∧ last_booked_ids (book_rooms HotelSystem_init 3).1 = rnumber <$> w
    ∧ Forall (λ ir : Ref,
                ∃ r', rooms (book_rooms HotelSystem_init 3).1 !! ir.1 = Some r'
                      ∧ is_booked r' = true ∧ number r' = rnumber ir) w.
Proof.
  destruct (book_rooms_commit_frame HotelSystem_init 3 [101; 102; 103])
    as (w & Hw & _ & Hids & Hlast & Hset & _).
  - vm_compute. left.
  - exists w. split_and!; [exact Hw|exact Hids|exact Hlast|].
    apply Forall_forall. intros [i r] Hir.
    destruct (Hset i r Hir) as (_ & _ & r' & Hr' & Hb & _ & _ & Hnum).
    exists r'. exact (conj Hr' (conj Hb Hnum)).
Defined.

(** ** The constructed hotel *)

Lemma place_eq r r' : place r = place r' → is_booked r = is_booked r' → r = r'.
Proof. destruct r, r'. unfold place. simpl. by intros [= -> -> ->] ->. Qed.

Lemma hotel_layout_init : hotel_layout HotelSystem_init.
Proof. done. Qed.

Lemma hotel_layout_occupy booked : hotel_layout (occupy booked).
Proof.
  unfold hotel_layout, occupy. cbn [rooms].
  rewrite <-list_fmap_compose. by apply list_fmap_ext.
Qed.

Lemma hotel_layout_generate_random coin h :
  hotel_layout h → hotel_layout (generate_random coin h).
Proof.
  unfold hotel_layout, generate_random. cbn [rooms]. intros <-.
  rewrite fmap_imap. apply list_eq. intros i.
  rewrite list_lookup_imap, list_lookup_fmap. by destruct (rooms h !! i).
Qed.

Lemma hotel_layout_book_rooms h n : hotel_layout h → hotel_layout (book_rooms h n).1.
Proof.
  unfold hotel_layout. intros <-.
  destruct (book_rooms_cases h n) as [? ->|? ? ->|k w ? ? ? ? ->|k w ? ? ? ? ->];
    try done; apply place_mark_booked.
Qed.

(** Every state the program reaches has the rooms of the constructed hotel. *)
Lemma reachable_layout h : reachable h → hotel_layout h.
Proof.
  induction 1;
    auto using hotel_layout_init, hotel_layout_generate_random, hotel_layout_book_rooms.
Qed.

Lemma init_hotel_numbers_NoDup : NoDup (number <$> _init_hotel).
Proof. eapply bool_decide_unpack. by vm_compute. Qed.

Lemma init_hotel_positions_NoDup : NoDup ((λ r, (floor r, index r)) <$> _init_hotel).
Proof. eapply bool_decide_unpack. by vm_compute. Qed.

Lemma init_hotel_number_formula :
  Forall (λ p : Z * Z * Z,
            p.2 = if p.1.1 <? 10 then (p.1.1 * 100) + (p.1.2 + 1) else 1000 + (p.1.2 + 1))
         (place <$> _init_hotel).
Proof. eapply bool_decide_unpack. by vm_compute. Qed.

Lemma hotel_layout_distinct h : hotel_layout h → distinct_positions h.
Proof.
  unfold hotel_layout, distinct_positions. intros Hl.
  replace ((λ r, (floor r, index r)) <$> rooms h) with (fst <$> (place <$> rooms h))
    by (by rewrite <-list_fmap_compose).
  rewrite Hl, <-list_fmap_compose. apply init_hotel_positions_NoDup.
Qed.

(** So does every state the program reaches. *)
Lemma reachable_distinct h : reachable h → distinct_positions h.
Proof. intros. by apply hotel_layout_distinct, reachable_layout. Qed.

(** C10: in the constructed hotel (under any occupancy) the room number is
    [floor * 100 + index + 1] below floor 10 and [1000 + index + 1] on
    floor 10, and two rooms with the same number are the same room. *)
Theorem number_identifies_room h :
  hotel_layout h →
  (∀ r, r ∈ rooms h →
     number r = if floor r <? 10 then (floor r * 100) + (index r + 1)
                else 1000 + (index r + 1))
  ∧ (∀ i j r1 r2, rooms h !! i = Some r1 → rooms h !! j = Some r2 →
       number r1 = number r2 → i = j)
  ∧ length (rooms h) = 97%nat.
Proof.
  intros Hl. split_and!.
  - intros r Hr. apply (list_elem_of_fmap_2 place) in Hr. rewrite Hl in Hr.
    pose proof init_hotel_number_formula as HF. rewrite Forall_forall in HF.
    apply (HF _ Hr).
  - intros i j r1 r2 Hi Hj Heq.
    assert (NoDup (number <$> rooms h)) as Hnd.
    { replace (number <$> rooms h) with (snd <$> (place <$> rooms h))
        by (by rewrite <-list_fmap_compose).
      rewrite Hl, <-list_fmap_compose. apply init_hotel_numbers_NoDup. }
    apply (NoDup_lookup _ i j (number r1) Hnd).
    + by rewrite list_lookup_fmap, Hi.
    + by rewrite list_lookup_fmap, Hj, Heq.
  - apply (f_equal length) in Hl. by rewrite !length_fmap in Hl.
Qed.

Lemma number_identifies_room_witness :
  NoDup (number <$> rooms HotelSystem_init)
  ∧ length (rooms HotelSystem_init) = 97%nat.
Proof.
  destruct (number_identifies_room HotelSystem_init hotel_layout_init)
    as (_ & Hinj & Hlen).
  split; [|exact Hlen].
  apply NoDup_alt. intros i j x Hi Hj.
  apply list_lookup_fmap_Some in Hi as (r1 & -> & Hi).
  apply list_lookup_fmap_Some in Hj as (r2 & Heq & Hj).
  exact (Hinj i j r1 r2 Hi Hj Heq).
Defined.

(** ** The cross-floor search is a heuristic (§4.3, §9) *)



Example fragmented_sorted :
  sort_by score (available_rooms fragmented)
  = [(5%nat, Room_init 1 5); (30%nat, Room_init 4 0); (15%nat, Room_init 2 5)].
Proof. by vm_compute. Qed.


(** ** Same-floor windows when positions are distinct *)

Lemma enumerate_rooms rs : snd <$> enumerate rs = rs.
Proof.
  unfold enumerate. rewrite fmap_imap. apply list_eq. intros i.
  rewrite list_lookup_imap. by destruct (rs !! i).
Qed.

Lemma available_positions_NoDup h :
  distinct_positions h →
  NoDup ((λ r : Ref, (rfloor r, rindex r)) <$> available_rooms h).
Proof.
  unfold distinct_positions. intros Hnd.
  rewrite <-(enumerate_rooms (rooms h)), <-list_fmap_compose in Hnd.
  eapply sublist_NoDup; [exact Hnd|].
  apply fmap_sublist, sublist_filter.
Qed.

Lemma on_floor_indices_NoDup h f :
  distinct_positions h → NoDup (rindex <$> on_floor f (available_rooms h)).
Proof.
  intros Hnd%available_positions_NoDup.
  apply (NoDup_fmap_1 (λ i : Z, (f, i))). rewrite <-list_fmap_compose.
  eapply sublist_NoDup in Hnd; [|apply fmap_sublist, (sublist_filter (λ r : Ref, rfloor r = f))].
  erewrite list_fmap_ext; [exact Hnd|].
  intros i x Hx%list_elem_of_lookup_2. simpl.
  by apply list_elem_of_filter in Hx as [<- _].
Qed.

Lemma on_floor_sorted_lt h f :
  distinct_positions h →
  StronglySorted Z.lt (rindex <$> sort_by rindex (on_floor f (available_rooms h))).
Proof. intros. by apply sort_by_keys_lt, on_floor_indices_NoDup. Qed.

(** The cost of a window is the difference of two entries of the index list. *)
Lemma span_cost_slice s (i : nat) n :
  1 ≤ n → (i + Z.to_nat n ≤ length s)%nat →
  ∃ a b, (rindex <$> s) !! i = Some a
    ∧ (rindex <$> s) !! (i + (Z.to_nat n - 1))%nat = Some b
    ∧ span_cost (slice s i n) = b - a.
Proof.
  intros Hn Hi.
  destruct (lookup_lt_is_Some_2 s i) as [x Hx]; [lia|].
  destruct (lookup_lt_is_Some_2 s (i + (Z.to_nat n - 1))%nat) as [y Hy]; [lia|].
  exists (rindex x), (rindex y). rewrite !list_lookup_fmap, Hx, Hy.
  split_and!; [done..|].
  unfold span_cost, first_index, last_index.
  rewrite head_slice, last_slice, Hx by done.
  by replace (i + Z.to_nat n - 1)%nat with (i + (Z.to_nat n - 1))%nat by lia; rewrite Hy.
Qed.

(** [n] rooms with distinct indices on one floor span at least [n - 1]. *)
Lemma same_floor_span_lower h n w :
  distinct_positions h → 1 ≤ n →
  w ∈ same_floor_windows n (available_rooms h) → n - 1 ≤ span_cost w.
Proof.
  intros Hd Hn (f & i & Hle & Hi & ->)%elem_of_same_floor_windows; [|done].
  rewrite <-(length_sort_by rindex) in Hi.
  destruct (span_cost_slice _ i n Hn Hi) as (a & b & Ha & Hb & ->).
  pose proof (sorted_lt_spread _ i (Z.to_nat n - 1) a b (on_floor_sorted_lt h f Hd) Ha Hb).
  lia.
Qed.

(** Such a run is one of the windows of the same-floor search, at cost [n - 1]. *)
Lemma contiguous_run_window h f k n :
  distinct_positions h → 1 ≤ n → contiguous_run h f k n →
  ∃ w, w ∈ same_floor_windows n (available_rooms h)
    ∧ span_cost w = n - 1
    ∧ first_index w = k.
Proof.
  intros Hd Hn Hrun.
  set (s := sort_by rindex (on_floor f (available_rooms h))).
  destruct (sorted_lt_run (rindex <$> s) k (Z.to_nat n)) as [p Hp];
    [by apply on_floor_sorted_lt| |lia|].
  { intros j Hj. destruct (Hrun (Z.of_nat j)) as (i & r & Hi & Hb & Hf & Hidx); [lia|].
    rewrite <-Hidx. apply (list_elem_of_fmap_2 rindex _ (i, r)).
    apply elem_of_sort_by, list_elem_of_filter. split; [done|].
    by apply elem_of_available_rooms. }
  assert (p + Z.to_nat n ≤ length s)%nat as Hlen.
  { specialize (Hp (Z.to_nat n - 1)%nat ltac:(lia)).
    apply lookup_lt_Some in Hp. rewrite length_fmap in Hp. lia. }
  exists (slice s p n). split_and!.
  - apply elem_of_same_floor_windows; [done|]. exists f, p.
    unfold s in Hlen. rewrite length_sort_by in Hlen. split_and!; [lia|done..].
  - destruct (span_cost_slice s p n Hn Hlen) as (a & b & Ha & Hb & ->).
    pose proof (Hp 0%nat ltac:(lia)) as Hp0.
    replace (p + 0)%nat with p in Hp0 by lia.
    rewrite Hp0 in Ha. rewrite Hp in Hb by lia.
    injection Ha as <-. injection Hb as <-. lia.
  - unfold first_index. rewrite head_slice by done.
    specialize (Hp 0%nat ltac:(lia)).
    apply list_lookup_fmap_Some in Hp as (x & Hx & Hp).
    replace (p + 0)%nat with p in Hp by lia. rewrite Hp. lia.
Qed.

(** C1 (amended): for [n] in [1,5], in a state whose rooms have distinct
    positions, if some floor has available rooms at [n] consecutive indices
    then [book_rooms h n] takes the same-floor path and reports travel cost
    [n - 1], the index of the last room of the window minus that of the
    first (zero only for [n = 1]). *)
Theorem contiguous_run_cost h n f k :
  distinct_positions h → 1 ≤ n ≤ 5 → contiguous_run h f k n →
  ∃ w, w ∈ same_floor_windows n (available_rooms h)
    ∧ span_cost w = n - 1
    ∧ book_rooms h n = booking h w (n - 1) []
    ∧ (InfoCrossFloor ∉ (book_rooms h n).2)
    ∧ TravelCost (Finite (n - 1)) ∈ (book_rooms h n).2.
Proof.
  intros Hd Hn Hrun.
  destruct (contiguous_run_window h f k n Hd ltac:(lia) Hrun) as (w0 & Hw0 & Hc0 & _).
  pose proof Hw0 as (f0 & i0 & Hle & _)%elem_of_same_floor_windows; [|lia].
  apply list_elem_of_lookup_1 in Hw0 as [j0 Hj0].
  destruct (book_rooms_cases h n) as [? Heq|? Hlen Heq|j w _ _ _ [Hj Hmin] Heq|j w _ _ Hf _ Heq].
  - done.
  - pose proof (submseteq_length _ _ (on_floor_submseteq f0 (available_rooms h))). lia.
  - assert (span_cost w = n - 1) as Hc.
    { destruct (Hmin j0 w0 Hj0) as [Hle' _].
      pose proof (same_floor_span_lower h n w Hd ltac:(lia)
                    (list_elem_of_lookup_2 _ _ _ Hj)). lia. }
    exists w. rewrite Heq, Hc. split_and!; [by eapply list_elem_of_lookup_2|done..| |].
    + intros Hin. unfold booking in Hin. msg_in Hin.
    + unfold booking. simpl. right. left.
  - specialize (Hf f0). lia.
Qed.

Lemma contiguous_run_cost_witness :
  TravelCost (Finite 2) ∈ (book_rooms HotelSystem_init 3).2.
Proof.
  destruct (contiguous_run_cost HotelSystem_init 3 5 4)
    as (w & _ & _ & _ & _ & Hin).
  - apply hotel_layout_distinct, hotel_layout_init.
  - lia.
  - intros j Hj. exists (Z.to_nat (44 + j)), (Room_init 5 (4 + j)).
    assert (j = 0 ∨ j = 1 ∨ j = 2) as [->|[->| ->]] by lia; by vm_compute.
  - exact Hin.
Defined.

(** Rooms 204 and 205 are the only ones available: a run of two on floor 2.
    The same-floor path is taken, and the cost reported is 1, not 0. *)
Lemma contiguous_run_cost_not_zero :
  contiguous_run (occupy (λ f i, negb ((f =? 2) && (3 <=? i) && (i <=? 4)))) 2 3 2
  ∧ (book_rooms (occupy (λ f i, negb ((f =? 2) && (3 <=? i) && (i <=? 4)))) 2).2
    = [Success [204; 205]; TravelCost (Finite 1); Grid]
  ∧ (TravelCost (Finite 0)
     ∉ (book_rooms (occupy (λ f i, negb ((f =? 2) && (3 <=? i) && (i <=? 4)))) 2).2).
Proof.
  split_and!.
  - intros j Hj. exists (Z.to_nat (13 + j)), (Room_init 2 (3 + j)).
    assert (j = 0 ∨ j = 1) as [-> | ->] by lia; by vm_compute.
  - by vm_compute.
  - replace (book_rooms _ 2).2 with [Success [204; 205]; TravelCost (Finite 1); Grid]
      by (by vm_compute).
    intros Hin. msg_in Hin.
Qed.

(** ** Scenario 1: floor 1 entirely free, three rooms requested (§8) *)

Lemma rooms_eq_of_place l l' :
  place <$> l = place <$> l' →
  Forall (λ r, is_booked r = false) l → Forall (λ r, is_booked r = false) l' →
  l = l'.
Proof.
  revert l'. induction l as [|r l IH]; intros [|r' l'] Hp Hl Hl'; try done.
  apply Forall_cons in Hl as [Hr Hl]. apply Forall_cons in Hl' as [Hr' Hl'].
  rewrite !fmap_cons in Hp. injection Hp as Hf Hi Hnum Hps. f_equal.
  - apply place_eq; [unfold place; congruence|by rewrite Hr, Hr'].
  - by apply IH.
Qed.

Lemma init_hotel_split : _init_hotel = first_floor ++ drop 10 _init_hotel.
Proof. by vm_compute. Qed.

Lemma init_hotel_upper_floors :
  Forall (λ p : Z * Z * Z, p.1.1 ≠ 1) (place <$> drop 10 _init_hotel).
Proof. eapply bool_decide_unpack. by vm_compute. Qed.

Lemma first_floor_places :
  Forall (λ p : Z * Z * Z, p.1.1 = 1) (place <$> first_floor).
Proof. eapply bool_decide_unpack. by vm_compute. Qed.

(** With floor 1 free, the room list starts with the ten unbooked rooms of
    floor 1 and continues with rooms of other floors. *)
Lemma first_floor_free_rooms h :
  hotel_layout h →
  (∀ r, r ∈ rooms h → floor r = 1 → is_booked r = false) →
  ∃ rest, rooms h = first_floor ++ rest ∧ Forall (λ r, floor r ≠ 1) rest.
Proof.
  intros Hl Hfree. unfold hotel_layout in Hl.
  rewrite init_hotel_split, fmap_app in Hl.
  assert (place <$> take 10 (rooms h) = place <$> first_floor) as Hten.
  { rewrite fmap_take, Hl. by rewrite take_app_length' by done. }
  assert (place <$> drop 10 (rooms h) = place <$> drop 10 _init_hotel) as Hrest.
  { rewrite fmap_drop, Hl. by rewrite drop_app_length' by done. }
  exists (drop 10 (rooms h)). split.
  - rewrite <-(take_drop 10 (rooms h)) at 1. f_equal.
    apply rooms_eq_of_place; [done| |].
    + apply Forall_forall. intros r Hr.
      apply Hfree; [by eapply elem_of_sublist; [|apply sublist_take]|].
      pose proof first_floor_places as Hp. rewrite <-Hten, Forall_forall in Hp.
      apply (Hp (place r)). by apply list_elem_of_fmap_2.
    + eapply bool_decide_unpack. by vm_compute.
  - pose proof init_hotel_upper_floors as Hp. rewrite <-Hrest, Forall_forall in Hp.
    apply Forall_forall. intros r Hr.
    apply (Hp (place r)). by apply list_elem_of_fmap_2.
Qed.

Lemma first_floor_free_available h :
  hotel_layout h →
  (∀ r, r ∈ rooms h → floor r = 1 → is_booked r = false) →
  ∃ rest, available_rooms h = enumerate first_floor ++ rest
    ∧ Forall (λ r : Ref, rfloor r ≠ 1) rest.
Proof.
  intros Hl Hfree.
  destruct (first_floor_free_rooms h Hl Hfree) as (rest & Hrooms & Hrest).
  unfold available_rooms, enumerate. rewrite Hrooms, imap_app, filter_app.
  eexists. split; [f_equal; by vm_compute|].
  apply Forall_forall. intros [i r] [_ Hir]%list_elem_of_filter.
  apply elem_of_lookup_imap in Hir as (j & r' & [= -> ->] & Hj).
  rewrite Forall_forall in Hrest. apply Hrest. by eapply list_elem_of_lookup_2.
Qed.

Lemma filter_none {A} (P : A → Prop) `{∀ x, Decision (P x)} (l : list A) :
  Forall (λ x, ¬ P x) l → filter P l = [].
Proof.
  induction 1 as [|x l Hx _ IH]; [done|].
  by rewrite filter_cons, decide_False, IH.
Qed.

(** The same-floor search starts with floor 1 and its window 0, 1, 2. *)
Lemma first_floor_free_windows h :
  hotel_layout h →
  (∀ r, r ∈ rooms h → floor r = 1 → is_booked r = false) →
  same_floor_windows 3 (available_rooms h) !! 0%nat = Some first_window
  ∧ length (on_floor 1 (available_rooms h)) = 10%nat.
Proof.
  intros Hl Hfree.
  destruct (first_floor_free_available h Hl Hfree) as (rest & Hav & Hrest).
  assert (on_floor 1 (available_rooms h) = enumerate first_floor) as Hon.
  { unfold on_floor. rewrite Hav, filter_app, (filter_none _ rest) by done.
    rewrite app_nil_r. by vm_compute. }
  split; [|by rewrite Hon].
  unfold same_floor_windows.
  assert (∃ d, group_by_floor (available_rooms h)
               = (1, on_floor 1 (available_rooms h)) :: d) as [d Hd].
  { rewrite Hav.
    exact (group_by_floor_head (0%nat, Room_init 1 0)
             (tail (enumerate first_floor) ++ rest)). }
  rewrite Hd, Hon, bind_cons.
  assert (∃ ws, floor_windows 3 (1, enumerate first_floor) = first_window :: ws)
    as [ws ->].
  { exists (tail (floor_windows 3 (1, enumerate first_floor))). by vm_compute. }
  done.
Qed.

(** C8 (amended): in any occupancy of the constructed hotel in which the
    ten rooms of floor 1 are all available, [book_rooms h 3] books the rooms
    of floor 1 with indices 0, 1 and 2 (numbers 101, 102, 103), the first
    window scanned, and reports cost 2 (index 2 minus index 0). *)
Theorem first_floor_free_books_first_window h :
  hotel_layout h →
  (∀ r, r ∈ rooms h → floor r = 1 → is_booked r = false) →
  same_floor_windows 3 (available_rooms h) !! 0%nat = Some first_window
  ∧ book_rooms h 3 = booking h first_window 2 []
  ∧ (book_rooms h 3).2 = [Success [101; 102; 103]; TravelCost (Finite 2); Grid]
  ∧ rfloor <$> first_window = [1; 1; 1]
  ∧ rindex <$> first_window = [0; 1; 2].
Proof.
  intros Hl Hfree.
  destruct (first_floor_free_windows h Hl Hfree) as [H0 Hten].
  assert (book_rooms h 3 = booking h first_window 2 []) as Heq.
  { destruct (book_rooms_cases h 3)
      as [Hn _|_ Hlen _|k w _ _ _ [Hk Hmin] Heq|k w _ _ Hf _ _].
    - lia.
    - pose proof (submseteq_length _ _ (on_floor_submseteq 1 (available_rooms h))). lia.
    - pose proof (same_floor_span_lower h 3 w (hotel_layout_distinct h Hl) ltac:(lia)
                    (list_elem_of_lookup_2 _ _ _ Hk)) as Hlow.
      destruct (Hmin 0%nat first_window H0) as [Hle Hlt].
      change (span_cost first_window) with 2 in Hle, Hlt.
      destruct k as [|k]; [|lia].
      rewrite H0 in Hk. injection Hk as <-. exact Heq.
    - specialize (Hf 1). lia. }
  split_and!; [done|done| |done..].
  by rewrite Heq.
Qed.

Lemma first_floor_free_books_first_window_witness :
  (book_rooms (occupy (λ f i, 5 <=? f)) 3).2
  = [Success [101; 102; 103]; TravelCost (Finite 2); Grid].
Proof.
  destruct (first_floor_free_books_first_window (occupy (λ f i, 5 <=? f)))
    as (_ & _ & Hout & _).
  - apply hotel_layout_occupy.
  - apply (Forall_forall (λ r, floor r = 1 → is_booked r = false)).
    eapply bool_decide_unpack. by vm_compute.
  - exact Hout.
Defined.

(** The empty hotel: floor 1 is free, the rooms booked are 101, 102, 103,
    and the cost reported is 2, not 0. *)
Lemma first_floor_free_cost_not_zero :
  Forall (λ r, floor r = 1 → is_booked r = false) (rooms HotelSystem_init)
  ∧ length (filter (λ r, floor r = 1) (rooms HotelSystem_init)) = 10%nat
  ∧ (book_rooms HotelSystem_init 3).2
    = [Success [101; 102; 103]; TravelCost (Finite 2); Grid]
  ∧ (TravelCost (Finite 0) ∉ (book_rooms HotelSystem_init 3).2).
Proof.
  split_and!.
  - eapply bool_decide_unpack. by vm_compute.
  - by vm_compute.
  - by vm_compute.
  - replace (book_rooms _ 3).2 with [Success [101; 102; 103]; TravelCost (Finite 2); Grid]
      by (by vm_compute).
    intros Hin. msg_in Hin.
Qed.

(** * Further properties of the allocator *)

(** ** The same-floor search is exact *)

Lemma sorted_le_lookup {A} (key : A → Z) (s : list A) (i j : nat) a b :
  StronglySorted (key_le key) s → s !! i = Some a → s !! j = Some b →
  (i ≤ j)%nat → key a ≤ key b.
Proof.
  intros Hs. revert i j. induction Hs as [|y s Hs IH Hy]; intros i j Hi Hj Hij.
  - by rewrite lookup_nil in Hi.
  - destruct i as [|i], j as [|j]; simpl in Hi, Hj; try lia.
    + injection Hi as <-. injection Hj as <-. lia.
    + injection Hi as <-. rewrite Forall_forall in Hy.
      apply (Hy b). by eapply list_elem_of_lookup_2.
    + apply (IH i j); [done..|lia].
Qed.

(** Any [k+1] elements of a sorted list reach at least its entry [k]. *)
Lemma sorted_kth_le_bound {A} (key : A → Z) (s w : list A) (k : nat) x hi :
  StronglySorted (key_le key) s → w ⊆+ s → length w = S k → s !! k = Some x →
  (∀ z, z ∈ w → key z ≤ hi) → key x ≤ hi.
Proof.
  intros Hs. revert w k x.
  induction Hs as [|y s Hs IH Hy]; intros w k x Hsub Hlen Hk Hhi.
  - by rewrite lookup_nil in Hk.
  - pose proof (SSorted_cons y Hs Hy) as Hys.
    apply submseteq_cons_r in Hsub as [Hsub|(w0 & Hp & Hsub)].
    + pose proof (submseteq_length _ _ Hsub).
      destruct (lookup_lt_is_Some_2 s k) as [x' Hx']; [lia|].
      specialize (IH w k x' Hsub Hlen Hx' Hhi).
      pose proof (sorted_le_lookup key (y :: s) k (S k) x x' Hys Hk Hx'). lia.
    + destruct k as [|k]; simpl in Hk.
      * injection Hk as <-. apply Hhi. rewrite Hp. left.
      * apply (IH w0 k x Hsub); [rewrite Hp in Hlen; simpl in Hlen; lia|done|].
        intros z Hz. apply Hhi. rewrite Hp. by right.
Qed.

(** Any [k+1] elements of a sorted list spread at least as wide as some
    window of [k+1] consecutive entries. *)
Lemma sorted_window_le_spread {A} (key : A → Z) (s w : list A) (k : nat) lo hi :
  StronglySorted (key_le key) s → w ⊆+ s → length w = S k →
  (∀ z, z ∈ w → lo ≤ key z ≤ hi) →
  ∃ (i : nat) a b, s !! i = Some a ∧ s !! (i + k)%nat = Some b
    ∧ key b - key a ≤ hi - lo.
Proof.
  intros Hs. revert w.
  induction Hs as [|y s Hs IH Hy]; intros w Hsub Hlen Hb.
  - apply submseteq_nil_r in Hsub as ->. done.
  - pose proof (SSorted_cons y Hs Hy) as Hys.
    pose proof Hsub as [Hsub'|(w0 & Hp & Hsub')]%submseteq_cons_r.
    + destruct (IH w Hsub' Hlen Hb) as (i & a & b & Ha & Hb' & Hle).
      by exists (S i), a, b.
    + pose proof (submseteq_length _ _ Hsub) as Hl.
      destruct (lookup_lt_is_Some_2 (y :: s) k) as [b Hk]; [lia|].
      exists 0%nat, y, b. split_and!; [done..|].
      assert (key b ≤ hi).
      { apply (sorted_kth_le_bound key (y :: s) w k b hi); [done..|].
        intros z Hz. by apply Hb. }
      assert (lo ≤ key y) by (apply Hb; rewrite Hp; left). lia.
Qed.

(** X1: when the same-floor path books at cost [c], no choice [w'] of [n]
    available rooms of one floor has its indices within a range narrower
    than [c]: the sliding window finds the least spread. *)
Theorem same_floor_search_least_spread h n c f w' lo hi :
  TravelCost (Finite c) ∈ (book_rooms h n).2 →
  InfoCrossFloor ∉ (book_rooms h n).2 →
  w' ⊆+ on_floor f (available_rooms h) →
  Z.of_nat (length w') = n →
  (∀ r, r ∈ w' → lo ≤ rindex r ≤ hi) →
  c ≤ hi - lo.
Proof.
  intros Hc Hno Hsub Hlen Hb.
  destruct (book_rooms_cases h n)
    as [? Heq|? ? Heq|k w Hn _ _ [Hk Hmin] Heq|k w ? ? ? ? Heq];
    rewrite Heq in Hc, Hno; try unfold booking in Hc, Hno.
  1,2: exfalso; msg_in Hc.
  2: { destruct Hno. simpl. left. }
  assert (c = span_cost w) as ->.
  { simpl in Hc. rewrite !elem_of_cons, elem_of_nil in Hc.
    destruct Hc as [Hc|[Hc|[Hc|[]]]]; try discriminate Hc. by injection Hc. }
  set (s := sort_by rindex (on_floor f (available_rooms h))).
  assert (w' ⊆+ s) as Hsub' by (unfold s; by rewrite sort_by_Permutation).
  destruct (sorted_window_le_spread rindex s w' (Z.to_nat n - 1) lo hi)
    as (i & a & b & Ha & Hb' & Hle); [apply sort_by_sorted|done|lia|done|].
  assert (i + Z.to_nat n ≤ length s)%nat as Hi.
  { apply lookup_lt_Some in Hb'. lia. }
  destruct (span_cost_slice s i n ltac:(lia) Hi) as (a' & b' & Ha' & Hb'' & Hspan).
  rewrite list_lookup_fmap, Ha in Ha'. rewrite list_lookup_fmap, Hb' in Hb''.
  injection Ha' as <-. injection Hb'' as <-.
  assert (slice s i n ∈ same_floor_windows n (available_rooms h)) as Hin.
  { apply elem_of_same_floor_windows; [lia|]. exists f, i.
    unfold s in Hi. rewrite length_sort_by in Hi. split_and!; [lia|done..]. }
  apply list_elem_of_lookup_1 in Hin as [j Hj].
  destruct (Hmin j _ Hj) as [Hle' _]. lia.
Qed.

Lemma same_floor_search_least_spread_witness : 1 ≤ 9 - 0.
Proof.
  apply (same_floor_search_least_spread gapped 2 1 1
           [(0%nat, Room_init 1 0); (9%nat, Room_init 1 9)] 0 9).
  - vm_compute. right. left.
  - replace (book_rooms gapped 2).2
      with [Success [104; 105]; TravelCost (Finite 1); Grid] by (by vm_compute).
    intros Hin. msg_in Hin.
  - replace (on_floor 1 (available_rooms gapped))
      with [(0%nat, Room_init 1 0); (3%nat, Room_init 1 3);
            (4%nat, Room_init 1 4); (9%nat, Room_init 1 9)] by (by vm_compute).
    apply sublist_submseteq, sublist_skip, sublist_cons, sublist_cons,
      sublist_skip, sublist_nil_l.
  - reflexivity.
  - intros r Hr. rewrite !elem_of_cons, elem_of_nil in Hr.
    destruct Hr as [->|[->|[]]]; unfold rindex; simpl; lia.
Defined.

(** ** Shape of the booked set on either path *)








(** ** What a call does to the pool of available rooms *)

Lemma mark_booked_imap rs w :
  mark_booked rs w
  = imap (λ i r, if decide (i ∈ w.*1) then set_is_booked true r else r) rs.
Proof.
  apply list_eq. intros i. rewrite lookup_mark_booked, list_lookup_imap.
  case_decide; by destruct (rs !! i).
Qed.

Lemma filter_imap_marked (W : list nat) (idx : nat → nat) rs :
  filter (λ r : Ref, is_booked r.2 = false)
    (imap (λ i r, (idx i, if decide (idx i ∈ W) then set_is_booked true r else r)) rs)
  = filter (λ p : Ref, p.1 ∉ W)
      (filter (λ r : Ref, is_booked r.2 = false) (imap (λ i r, (idx i, r)) rs)).
Proof.
  revert idx. induction rs as [|x rs IH]; intros idx; [done|].
  rewrite !imap_cons, !filter_cons. simpl.
  pose proof (IH (idx ∘ S)) as IH'. simpl in IH'.
  destruct (decide (idx 0%nat ∈ W)) as [Hin|Hin]; simpl.
  - destruct (decide (is_booked x = false)) as [Hx|Hx].
    + rewrite filter_cons, decide_False by (simpl; tauto). exact IH'.
    + exact IH'.
  - destruct (decide (is_booked x = false)) as [Hx|Hx].
    + rewrite filter_cons, decide_True by done. f_equal. exact IH'.
    + exact IH'.
Qed.

(** After a booking the available list is the old one without the rooms
    chosen, in the same order. *)
Lemma available_rooms_booking h w c out :
  available_rooms (booking h w c out).1
  = filter (λ p : Ref, p.1 ∉ w.*1) (available_rooms h).
Proof.
  unfold available_rooms, booking, enumerate. cbn [fst rooms].
  rewrite mark_booked_imap, <-(filter_imap_marked w.*1 id).
  f_equal. apply list_eq. intros i. rewrite !list_lookup_imap.
  by destruct (rooms h !! i).
Qed.

Lemma length_filter_not_chosen (av w : list Ref) :
  NoDup av.*1 → w ⊆+ av →
  (length (filter (λ p : Ref, p.1 ∉ w.*1) av) + length w = length av)%nat.
Proof.
  intros Hnd [k Hk]%submseteq_Permutation.
  rewrite Hk in Hnd |- *. rewrite fmap_app in Hnd.
  apply NoDup_app in Hnd as (_ & Hdisj & _).
  rewrite filter_app, !length_app.
  assert (filter (λ p : Ref, p.1 ∉ w.*1) w = []) as ->.
  { apply filter_none, Forall_forall. intros p Hp Hnot.
    by apply Hnot, list_elem_of_fmap_2. }
  assert (filter (λ p : Ref, p.1 ∉ w.*1) k = k) as ->.
  { clear Hk. induction k as [|p k IH]; [done|].
    rewrite filter_cons, decide_True.
    - f_equal. apply IH. intros x Hx Hxk. apply (Hdisj x Hx).
      rewrite fmap_cons. by right.
    - intros Hp. apply (Hdisj _ Hp). rewrite fmap_cons. left. }
  simpl. lia.
Qed.

(** X4: a call that succeeds (1 <= n <= 5 and at least [n] rooms
    available) lowers the number of available rooms by exactly [n]; any
    other call leaves it as it was. *)
Theorem book_rooms_availability h n :
  Z.of_nat (length (available_rooms (book_rooms h n).1))
  = Z.of_nat (length (available_rooms h))
    - (if decide (1 ≤ n ≤ 5 ∧ n ≤ Z.of_nat (length (available_rooms h)))
       then n else 0).
Proof.
  destruct (decide (1 ≤ n ≤ 5)) as [Hn|Hn].
  - destruct (Z.lt_ge_cases (Z.of_nat (length (available_rooms h))) n) as [Hlen|Hlen].
    + rewrite book_rooms_not_enough, decide_False by (done || lia). simpl. lia.
    + rewrite decide_True by (split; [done|lia]).
      destruct (book_rooms_success h n Hn Hlen)
        as (w & c & out & _ & Hw & Hsub & _ & ->).
      change (_, ?o) with (booking h w c out).
      rewrite available_rooms_booking.
      pose proof (length_filter_not_chosen _ w (available_rooms_NoDup h) Hsub). lia.
  - rewrite book_rooms_invalid, decide_False by (done || tauto). simpl. lia.
Qed.

(** ** Bookings in terms of room numbers *)

Lemma layout_number_inj h i j r1 r2 :
  hotel_layout h → rooms h !! i = Some r1 → rooms h !! j = Some r2 →
  number r1 = number r2 → i = j.
Proof.
  intros Hl Hi Hj Heq.
  assert (NoDup (number <$> rooms h)) as Hnd.
  { replace (number <$> rooms h) with (snd <$> (place <$> rooms h))
      by (by rewrite <-list_fmap_compose).
    rewrite Hl, <-list_fmap_compose. apply init_hotel_numbers_NoDup. }
  apply (NoDup_lookup _ i j (number r1) Hnd).
  - by rewrite list_lookup_fmap, Hi.
  - by rewrite list_lookup_fmap, Hj, Heq.
Qed.

(** A successful call seen through the numbers it prints. *)
Lemma book_rooms_numbers h n ids :
  hotel_layout h → Success ids ∈ (book_rooms h n).2 →
  NoDup ids
  ∧ Z.of_nat (length ids) = n
  ∧ last_booked_ids (book_rooms h n).1 = ids
  ∧ (∀ x, x ∈ ids → ∃ i r, rooms h !! i = Some r ∧ number r = x)
  ∧ ∀ i r, rooms h !! i = Some r →
      (number r ∈ ids →
         is_booked r = false
         ∧ rooms (book_rooms h n).1 !! i = Some (set_is_booked true r))
      ∧ (number r ∉ ids → rooms (book_rooms h n).1 !! i = Some r).
Proof.
  intros Hl Hin.
  destruct (decide (1 ≤ n ≤ 5)) as [Hn|Hn];
    [|rewrite book_rooms_invalid in Hin by done; msg_in Hin].
  destruct (Z.lt_ge_cases (Z.of_nat (length (available_rooms h))) n) as [Hlen|Hlen];
    [rewrite book_rooms_not_enough in Hin by done; msg_in Hin|].
  destruct (book_rooms_success h n Hn Hlen)
    as (w & c & out & _ & Hw & Hsub & Hout & Heq).
  destruct (window_refs h n w Hw Hsub) as [Hnd Hav].
  destruct (booking_rooms h w c out) as (Hset & Hother & _);
    [intros i r Hir; by apply Hav|].
  rewrite Heq in Hin |- *.
  assert (ids = rnumber <$> w) as ->.
  { unfold booking in Hin. simpl in Hin.
    destruct Hout as [-> | ->]; simpl in Hin;
      rewrite ?elem_of_cons, elem_of_nil in Hin;
      destruct Hin as [Hin|Hin]; try discriminate Hin;
      intuition (try discriminate; congruence). }
  assert (∀ i r, rooms h !! i = Some r → number r ∈ rnumber <$> w → (i, r) ∈ w) as Hchosen.
  { intros i r Hi ([j r'] & Hnum & Hj)%list_elem_of_fmap.
    destruct (Hav j r' Hj) as [Hj' _]. unfold rnumber in Hnum. simpl in Hnum.
    assert (i = j) as -> by (by eapply layout_number_inj).
    by replace r with r' by congruence. }
  split_and!.
  - apply NoDup_fmap_2_strong; [|by eapply NoDup_fmap_1].
    intros [i r] [j r'] Hi Hj Hnum.
    destruct (Hav i r Hi) as [Hi' _]. destruct (Hav j r' Hj) as [Hj' _].
    assert (i = j) as -> by (by eapply layout_number_inj). congruence.
  - rewrite length_fmap. lia.
  - done.
  - intros x ([i r] & -> & Hir)%list_elem_of_fmap.
    destruct (Hav i r Hir) as [Hi _]. by exists i, r.
  - intros i r Hi. split.
    + intros Hir%(Hchosen i r Hi). destruct (Hav i r Hir). split; [done|by apply Hset].
    + intros Hnot. rewrite Hother; [done|].
      intros ([j r'] & Hj & Hjr)%list_elem_of_fmap. simpl in Hj. subst j.
      destruct (Hav _ _ Hjr) as [Hi' _]. apply Hnot.
      replace r with r' by congruence. by apply (list_elem_of_fmap_2 rnumber _ (i, r')).
Qed.

(** X5: a call never touches a room that is already booked: it stays
    booked, with the same fields, whatever [n] is. *)
Theorem occupied_rooms_untouched h n i r :
  rooms h !! i = Some r → is_booked r = true →
  rooms (book_rooms h n).1 !! i = Some r.
Proof.
  intros Hi Hb.
  destruct (book_rooms_cases h n) as [? ->|? ? ->|k w Hn ? ? [Hk _] ->|k w Hn ? ? [Hk _] ->];
    try done.
  - destruct (same_floor_window_valid n (available_rooms h) w) as [Hw Hsub];
      [lia|by eapply list_elem_of_lookup_2|].
    destruct (window_refs h n w Hw Hsub) as [_ Hav].
    destruct (booking_rooms h w (span_cost w) []) as (_ & Hother & _);
      [intros j r' Hjr; by apply Hav|].
    rewrite Hother; [done|]. intros ([j r'] & Hj & Hjr)%list_elem_of_fmap.
    simpl in Hj. subst j. destruct (Hav _ _ Hjr). congruence.
  - destruct (cross_floor_window_valid n (available_rooms h) w) as [Hw Hsub];
      [lia|by eapply list_elem_of_lookup_2|].
    destruct (window_refs h n w Hw Hsub) as [_ Hav].
    destruct (booking_rooms h w (box_cost w) [InfoCrossFloor]) as (_ & Hother & _);
      [intros j r' Hjr; by apply Hav|].
    rewrite Hother; [done|]. intros ([j r'] & Hj & Hjr)%list_elem_of_fmap.
    simpl in Hj. subst j. destruct (Hav _ _ Hjr). congruence.
Qed.

Lemma occupied_rooms_untouched_witness :
  rooms (book_rooms gapped 2).1 !! 1%nat = Some (set_is_booked true (Room_init 1 1)).
Proof.
  apply (occupied_rooms_untouched gapped 2 1 (set_is_booked true (Room_init 1 1)));
    reflexivity.
Defined.

Lemma reachable_highlight h : reachable h → highlight_booked h.
Proof.
  induction 1 as [|h _ _|coin h _ _|n h Hr IH].
  1-3: intros r _ Hin; simpl in Hin; by apply elem_of_nil in Hin.
  pose proof (reachable_layout h Hr) as Hl.
  destruct (book_rooms_cases h n) as [? Heq|? ? Heq|k w ? ? ? ? Heq|k w ? ? ? ? Heq];
    try (by rewrite Heq).
  all: intros r' [i Hi']%list_elem_of_lookup_1 Hnum;
    destruct (book_rooms_numbers h n (rnumber <$> w) Hl) as (_ & _ & Hlast & _ & Hrooms);
    [rewrite Heq; unfold booking; simpl; rewrite ?elem_of_cons; tauto|];
    rewrite Hlast in Hnum;
    destruct (lookup_lt_is_Some_2 (rooms h) i) as [r Hi];
    [apply lookup_lt_Some in Hi'; rewrite Heq in Hi'; unfold booking in Hi';
     cbn [fst rooms] in Hi'; by rewrite length_mark_booked in Hi'|];
    destruct (Hrooms i r Hi) as [Hyes Hno];
    destruct (decide (number r ∈ rnumber <$> w)) as [Hin|Hnin];
    [destruct (Hyes Hin) as [_ Hset]; rewrite Hset in Hi'; by injection Hi' as <-
    |rewrite (Hno Hnin) in Hi'; by injection Hi' as <-].
Qed.

(** X6: in every state the program reaches, the rooms whose numbers are in
    [last_booked_ids] are booked. *)
Theorem highlight_invariant h : reachable h → highlight_booked h.
Proof. apply reachable_highlight. Qed.

Lemma highlight_invariant_witness :
  Forall (λ r, number r ∈ [102; 104; 106; 108] → is_booked r = true)
    (rooms (book_rooms (generate_random (λ i, Nat.even i) HotelSystem_init) 4).1).
Proof.
  apply Forall_forall.
  exact (highlight_invariant
           (book_rooms (generate_random (λ i, Nat.even i) HotelSystem_init) 4).1
           (reach_book 4 _ (reach_random _ _ reach_init))).
Defined.

(** X7: no operation adds, removes, moves or renumbers a room: every
    reachable state has the 97 rooms of the constructed hotel, in the same
    order, with the same floor, index and number; only [is_booked] varies. *)
Theorem reachable_keeps_rooms h :
  reachable h →
  length (rooms h) = 97%nat
  ∧ ∀ i r, rooms h !! i = Some r →
      ∃ r0, _init_hotel !! i = Some r0
        ∧ floor r = floor r0 ∧ index r = index r0 ∧ number r = number r0.
Proof.
  intros Hl%reachable_layout. unfold hotel_layout in Hl. split.
  - apply (f_equal length) in Hl. by rewrite !length_fmap in Hl.
  - intros i r Hi. apply (f_equal (.!! i)) in Hl.
    rewrite !list_lookup_fmap, Hi in Hl.
    destruct (_init_hotel !! i) as [r0|]; [|done].
    exists r0. injection Hl as Hf Hx Hn. by split_and!.
Qed.

Lemma reachable_keeps_rooms_witness :
  length (rooms (book_rooms (reset (book_rooms HotelSystem_init 5).1) 2).1) = 97%nat.
Proof.
  apply (reachable_keeps_rooms
           (book_rooms (reset (book_rooms HotelSystem_init 5).1) 2).1).
  apply reach_book, reach_reset, reach_book, reach_init.
Defined.

(** X8: in the constructed hotel, the numbers a successful call prints are
    [n] different room numbers; each belongs to a room that was available
    and has [is_booked = true] afterwards, with its floor, index and number
    kept, and a room whose number is not printed is left as it was. *)
Theorem success_reports_available_rooms h n ids :
  hotel_layout h → Success ids ∈ (book_rooms h n).2 →
  NoDup ids
  ∧ Z.of_nat (length ids) = n
  ∧ (∀ x, x ∈ ids → ∃ i r, rooms h !! i = Some r ∧ number r = x)
  ∧ ∀ i r, rooms h !! i = Some r →
      (number r ∈ ids →
         is_booked r = false
         ∧ ∃ r', rooms (book_rooms h n).1 !! i = Some r'
                 ∧ is_booked r' = true
                 ∧ floor r' = floor r ∧ index r' = index r ∧ number r' = number r)
      ∧ (number r ∉ ids → rooms (book_rooms h n).1 !! i = Some r).
Proof.
  intros Hl Hin.
  destruct (book_rooms_numbers h n ids Hl Hin) as (H1 & H2 & _ & H3 & H4).
  split_and!; [done..|].
  intros i r Hi. destruct (H4 i r Hi) as [Hyes Hno]. split; [|done].
  intros Hr. destruct (Hyes Hr) as [Hav Hset]. split; [done|].
  exists (set_is_booked true r). split; [done|]. split_and!; reflexivity.
Qed.

Lemma success_reports_available_rooms_witness :
  NoDup [104; 105] ∧ Z.of_nat (length [104; 105]) = 2
  ∧ ∃ r', rooms (book_rooms gapped 2).1 !! 3%nat = Some r'
          ∧ is_booked r' = true ∧ number r' = 104.
Proof.
  destruct (success_reports_available_rooms gapped 2 [104; 105])
    as (Hnd & Hlen & _ & Hrooms).
  - apply hotel_layout_occupy.
  - vm_compute. left.
  - split_and!; [exact Hnd|exact Hlen|].
    assert (rooms gapped !! 3%nat = Some (Room_init 1 3)) as H3 by (by vm_compute).
    destruct (Hrooms 3%nat (Room_init 1 3) H3) as [Hyes _].
    destruct Hyes as (_ & r' & Hr' & Hb & _ & _ & Hnum).
    { vm_compute. left. }
    exists r'. exact (conj Hr' (conj Hb Hnum)).
Defined.

(** X9: in the constructed hotel two successive successful calls never
    report the same room: the numbers printed by the second call are all
    different from those printed by the first. *)
Theorem consecutive_bookings_disjoint h n1 n2 ids1 ids2 x :
  hotel_layout h →
  Success ids1 ∈ (book_rooms h n1).2 →
  Success ids2 ∈ (book_rooms (book_rooms h n1).1 n2).2 →
  x ∈ ids1 → x ∉ ids2.
Proof.
  intros Hl H1 H2 Hx1 Hx2.
  destruct (book_rooms_numbers h n1 ids1 Hl H1) as (_ & _ & _ & Hex & Hrooms1).
  destruct (book_rooms_numbers _ n2 ids2 (hotel_layout_book_rooms h n1 Hl) H2)
    as (_ & _ & _ & _ & Hrooms2).
  destruct (Hex x Hx1) as (i & r & Hi & <-).
  destruct (Hrooms1 i r Hi) as [Hyes _].
  destruct (Hyes Hx1) as [_ Hset].
  destruct (Hrooms2 i _ Hset) as [Hyes2 _].
  by destruct (Hyes2 Hx2).
Qed.

Lemma consecutive_bookings_disjoint_witness :
  Forall (λ x, x ∉ [104; 105; 106]) [101; 102; 103].
Proof.
  apply Forall_forall. intros x Hx.
  apply (consecutive_bookings_disjoint HotelSystem_init 3 3 [101; 102; 103] [104; 105; 106]).
  - apply hotel_layout_init.
  - vm_compute. left.
  - vm_compute. left.
  - exact Hx.
Defined.

(** ** Ties: the lowest floor, then the leftmost window *)

Lemma StronglySorted_sublist {A} (R : relation A) (l k : list A) :
  l `sublist_of` k → StronglySorted R k → StronglySorted R l.
Proof.
  induction 1 as [|x l k Hlk IH|x l k Hlk IH]; intros Hk; [done|..].
  - apply StronglySorted_cons in Hk as [Hx Hk]. apply StronglySorted_cons.
    split; [|by apply IH].
    rewrite Forall_forall in Hx |- *. intros y Hy. apply Hx.
    by eapply elem_of_sublist.
  - apply StronglySorted_cons in Hk as [_ Hk]. by apply IH.
Qed.

Lemma StronglySorted_bind {A B} (R1 : relation A) (R2 : relation B)
    (g : A → list B) (d : list A) :
  StronglySorted R1 d →
  (∀ e, e ∈ d → StronglySorted R2 (g e)) →
  (∀ e1 e2 x y, e1 ∈ d → e2 ∈ d → R1 e1 e2 → x ∈ g e1 → y ∈ g e2 → R2 x y) →
  StronglySorted R2 (d ≫= g).
Proof.
  induction 1 as [|e d Hd IH He]; intros Hin Hcross; [constructor|].
  rewrite bind_cons. apply StronglySorted_app. split_and!.
  - intros x y Hx (e2 & Hy & He2)%list_elem_of_bind.
    rewrite Forall_forall in He.
    apply (Hcross e e2); [left|by right|by apply He|done..].
  - apply Hin. left.
  - apply IH.
    + intros e' He'. apply Hin. by right.
    + intros e1 e2 x y H1 H2. apply Hcross; by right.
Qed.

Lemma StronglySorted_lookup_lt {A} (R : relation A) (l : list A) (i j : nat) x y :
  StronglySorted R l → l !! i = Some x → l !! j = Some y → (i < j)%nat → R x y.
Proof.
  intros Hs. revert i j. induction Hs as [|z l Hs IH Hz]; intros i j Hi Hj Hij.
  - by rewrite lookup_nil in Hi.
  - destruct j as [|j]; [lia|]. simpl in Hj. destruct i as [|i]; simpl in Hi.
    + injection Hi as ->. rewrite Forall_forall in Hz. apply Hz.
      by eapply list_elem_of_lookup_2.
    + apply (IH i j); [done..|lia].
Qed.

(** In the constructed hotel the dict [floors] has its keys in ascending
    order, because [self.rooms] lists the floors in ascending order. *)
Lemma init_hotel_floors_sorted : StronglySorted Z.le (floor <$> _init_hotel).
Proof. eapply bool_decide_unpack. by vm_compute. Qed.

Lemma available_floors_sorted h :
  hotel_layout h → StronglySorted Z.le (rfloor <$> available_rooms h).
Proof.
  intros Hl.
  replace (rfloor <$> available_rooms h) with (floor <$> (snd <$> available_rooms h))
    by (by rewrite <-list_fmap_compose).
  rewrite available_rooms_unbooked.
  eapply StronglySorted_sublist; [apply fmap_sublist, sublist_filter|].
  replace (floor <$> rooms h) with ((λ p : Z * Z * Z, p.1.1) <$> (place <$> rooms h))
    by (by rewrite <-list_fmap_compose).
  rewrite Hl, <-list_fmap_compose. apply init_hotel_floors_sorted.
Qed.

Lemma group_by_floor_keys_sorted av :
  StronglySorted Z.le (rfloor <$> av) →
  StronglySorted Z.lt (group_by_floor av).*1
  ∧ ∀ k, k ∈ (group_by_floor av).*1 → k ∈ rfloor <$> av.
Proof.
  induction av as [|r av IH] using rev_ind; intros Hs.
  - split; [constructor|]. by intros k ?%elem_of_nil.
  - rewrite fmap_app in Hs. apply StronglySorted_app in Hs as (Hle & Hs & _).
    destruct (IH Hs) as [Hkeys Hin].
    rewrite group_by_floor_snoc, floors_append_keys, fmap_app.
    case_decide as Hr.
    + split; [done|]. intros k Hk. apply elem_of_app. left. by apply Hin.
    + split.
      * apply StronglySorted_app. split_and!; [|done|repeat constructor].
        intros k g Hk ->%list_elem_of_singleton.
        specialize (Hle k (rfloor r) (Hin k Hk)). simpl in Hle.
        assert (k ≠ rfloor r) by (by intros ->).
        pose proof (Hle ltac:(left)). lia.
      * intros k [Hk|Hk]%elem_of_app; apply elem_of_app; [left; by apply Hin|by right].
Qed.

Lemma window_floor_slice f av (i : nat) n :
  1 ≤ n → (i + Z.to_nat n ≤ length (on_floor f av))%nat →
  window_floor (slice (sort_by rindex (on_floor f av)) i n) = f.
Proof.
  intros Hn Hi. unfold window_floor. rewrite head_slice by done.
  destruct (lookup_lt_is_Some_2 (sort_by rindex (on_floor f av)) i) as [r Hr].
  { rewrite length_sort_by. lia. }
  rewrite Hr. apply list_elem_of_lookup_2, elem_of_sort_by in Hr.
  by apply list_elem_of_filter in Hr as [? _].
Qed.

(** On one floor, windows further from the lift come later. *)
Lemma floor_windows_sorted h f n :
  distinct_positions h → 1 ≤ n →
  StronglySorted scan_before
    (windows n (sort_by rindex (on_floor f (available_rooms h)))).
Proof.
  intros Hd Hn. pose proof (on_floor_sorted_lt h f Hd) as Hlt.
  set (av := available_rooms h) in *.
  set (s := sort_by rindex (on_floor f av)) in *.
  assert (length (on_floor f av) = length s) as Hlen
    by (unfold s; by rewrite length_sort_by).
  assert (∀ m a, (a + m + Z.to_nat n ≤ length s + 1)%nat →
            StronglySorted scan_before ((λ i, slice s i n) <$> seq a m)) as Hgen.
  { induction m as [|m IHm]; intros a Ha; [constructor|].
    simpl. constructor; [apply IHm; lia|].
    apply Forall_forall. intros w (j & -> & Hj)%list_elem_of_fmap.
    apply elem_of_seq in Hj. right.
    unfold s at 1 2. rewrite !window_floor_slice by lia. split; [done|].
    unfold first_index. rewrite !head_slice by done.
    destruct (lookup_lt_is_Some_2 s a) as [x Hx]; [lia|].
    destruct (lookup_lt_is_Some_2 s j) as [y Hy]; [lia|].
    rewrite Hx, Hy.
    apply (sorted_lt_lookup (rindex <$> s) a j); [done|..|lia];
      by rewrite list_lookup_fmap, ?Hx, ?Hy. }
  unfold windows, range0.
  destruct (Z.to_nat (Z.of_nat (length s) - n + 1)) as [|m] eqn:Hm; [constructor|].
  apply Hgen. lia.
Qed.

(** The windows of the same-floor search come in [scan_before] order. *)
Lemma same_floor_windows_sorted h n :
  hotel_layout h → 1 ≤ n →
  StronglySorted scan_before (same_floor_windows n (available_rooms h)).
Proof.
  intros Hl Hn. set (av := available_rooms h).
  destruct (group_by_floor_keys_sorted av (available_floors_sorted h Hl)) as [Hkeys _].
  assert (StronglySorted (λ e1 e2 : Z * list Ref, e1.1 < e2.1) (group_by_floor av)) as Hd.
  { clear -Hkeys. induction (group_by_floor av) as [|e d IH]; [constructor|].
    rewrite fmap_cons in Hkeys. apply StronglySorted_cons in Hkeys as [He Hd].
    constructor; [by apply IH|].
    apply Forall_forall. intros e' He'.
    apply (proj1 (Forall_forall _ _) He). by apply list_elem_of_fmap_2. }
  assert (∀ f rs w, (f, rs) ∈ group_by_floor av → w ∈ floor_windows n (f, rs) →
            ∃ i : nat, (i + Z.to_nat n ≤ length (on_floor f av))%nat
              ∧ w = slice (sort_by rindex (on_floor f av)) i n) as Hwin.
  { intros f rs w [-> _]%elem_of_group_by_floor Hw.
    unfold floor_windows in Hw. simpl in Hw.
    destruct (n <=? _); [|by apply elem_of_nil in Hw].
    apply elem_of_windows in Hw as (i & Hi & ->); [|done].
    rewrite length_sort_by in Hi. eauto. }
  apply (StronglySorted_bind _ _ _ _ Hd).
  - intros [f rs] He. pose proof He as [-> _]%elem_of_group_by_floor.
    unfold floor_windows. simpl. destruct (n <=? _); [|constructor].
    by apply floor_windows_sorted; [apply hotel_layout_distinct|].
  - intros [f1 rs1] [f2 rs2] x y H1 H2 Hlt Hx Hy. simpl in Hlt.
    destruct (Hwin _ _ _ H1 Hx) as (i & Hi & ->).
    destruct (Hwin _ _ _ H2 Hy) as (j & Hj & ->).
    left. by rewrite !window_floor_slice.
Qed.

(** X10: in the constructed hotel, among the same-floor windows of least
    cost the call books the one that comes first in the order "lower floor
    first, then smaller first index": every other window of the same cost
    lies on a higher floor, or on the same floor further from the lift. *)
Theorem same_floor_tie_break h n c :
  hotel_layout h →
  TravelCost (Finite c) ∈ (book_rooms h n).2 →
  InfoCrossFloor ∉ (book_rooms h n).2 →
  ∃ w, book_rooms h n = booking h w c []
    ∧ w ∈ same_floor_windows n (available_rooms h)
    ∧ ∀ w', w' ∈ same_floor_windows n (available_rooms h) →
        span_cost w' = c → w' = w ∨ scan_before w w'.
Proof.
  intros Hl Hc Hno.
  destruct (book_rooms_cases h n)
    as [? Heq|? ? Heq|k w Hn _ _ [Hk Hmin] Heq|k w ? ? ? ? Heq];
    rewrite Heq in Hc, Hno; try unfold booking in Hc, Hno.
  1,2: exfalso; msg_in Hc.
  2: { destruct Hno. simpl. left. }
  assert (c = span_cost w) as ->.
  { simpl in Hc. rewrite !elem_of_cons, elem_of_nil in Hc.
    destruct Hc as [Hc|[Hc|[Hc|[]]]]; try discriminate Hc. by injection Hc. }
  exists w. split_and!; [done|by eapply list_elem_of_lookup_2|].
  intros w' [j Hj]%list_elem_of_lookup_1 Hcost.
  destruct (Hmin j w' Hj) as [_ Hlt].
  destruct (decide (j = k)) as [->|Hjk].
  - left. congruence.
  - right.
    apply (StronglySorted_lookup_lt _ _ k j w w'
             (same_floor_windows_sorted h n Hl ltac:(lia))); [done..|].
    destruct (decide (j < k)%nat) as [Hjlt|]; [|lia].
    specialize (Hlt Hjlt). lia.
Qed.

Lemma same_floor_tie_break_witness :
  ∃ w, book_rooms HotelSystem_init 3 = booking HotelSystem_init w 2 []
    ∧ w ∈ same_floor_windows 3 (available_rooms HotelSystem_init).
Proof.
  destruct (same_floor_tie_break HotelSystem_init 3 2) as (w & Heq & Hw & _).
  - apply hotel_layout_init.
  - vm_compute. right. left.
  - replace (book_rooms HotelSystem_init 3).2
      with [Success [101; 102; 103]; TravelCost (Finite 2); Grid] by (by vm_compute).
    intros Hin. msg_in Hin.
  - exists w. exact (conj Heq Hw).
Defined.

(** * The grid printed by [print_grid] *)

Lemma filter_fmap {A B} (g : A → B) (P : B → Prop) `{∀ y, Decision (P y)} (l : list A) :
  filter P (g <$> l) = g <$> filter (λ x, P (g x)) l.
Proof.
  induction l as [|x l IH]; [done|].
  rewrite fmap_cons, !filter_cons, IH. by case_decide.
Qed.

Lemma sorted_of_keys {A} (key : A → Z) (l : list A) :
  StronglySorted Z.le (key <$> l) → StronglySorted (key_le key) l.
Proof.
  induction l as [|x l IH]; [constructor|].
  rewrite fmap_cons. intros [Hx Hl]%StronglySorted_cons.
  constructor; [by apply IH|].
  apply Forall_forall. intros y Hy. rewrite Forall_forall in Hx.
  apply Hx. by apply list_elem_of_fmap_2.
Qed.

Lemma sort_by_id {A} (key : A → Z) (l : list A) :
  StronglySorted (key_le key) l → sort_by key l = l.
Proof.
  induction 1 as [|x l Hl IH Hx]; simpl; [done|].
  rewrite IH. destruct Hx as [|y l' Hy _]; simpl; [done|].
  unfold key_le in Hy. by destruct (Z.leb_spec (key x) (key y)); [|lia].
Qed.

Lemma elem_of_range lo hi x : x ∈ range lo hi ↔ lo ≤ x < hi.
Proof.
  unfold range. rewrite list_elem_of_fmap. setoid_rewrite elem_of_seq. split.
  - intros (k & -> & Hk). lia.
  - intros Hx. exists (Z.to_nat (x - lo)). lia.
Qed.

(** The rows of the constructed hotel, read off [_init_hotel]. *)
Lemma init_hotel_rows :
  Forall (λ f, filter (λ p : Z * Z * Z, p.1.1 = f) (place <$> _init_hotel)
               = place <$> (Room_init f <$> range 0 (if f =? 10 then 7 else 10)))
         (range 1 11).
Proof. eapply bool_decide_unpack. by vm_compute. Qed.

Lemma init_hotel_rows_sorted :
  Forall (λ f, StronglySorted Z.le
                 ((λ p : Z * Z * Z, p.1.2)
                    <$> filter (λ p : Z * Z * Z, p.1.1 = f) (place <$> _init_hotel)))
         (range 1 11).
Proof. eapply bool_decide_unpack. by vm_compute. Qed.

Lemma grid_floor_rooms_place h f :
  hotel_layout h → 1 ≤ f ≤ 10 →
  grid_floor_rooms h f = filter (λ r, floor r = f) (rooms h)
  ∧ place <$> grid_floor_rooms h f
    = place <$> (Room_init f <$> range 0 (if f =? 10 then 7 else 10)).
Proof.
  intros Hl Hf. unfold hotel_layout in Hl.
  assert (f ∈ range 1 11) as Hin by (apply elem_of_range; lia).
  pose proof (proj1 (Forall_forall _ _) init_hotel_rows f Hin) as Hrow.
  pose proof (proj1 (Forall_forall _ _) init_hotel_rows_sorted f Hin) as Hsorted.
  cbv beta in Hrow, Hsorted.
  assert (place <$> filter (λ r, floor r = f) (rooms h)
          = filter (λ p : Z * Z * Z, p.1.1 = f) (place <$> _init_hotel)) as Hpl.
  { rewrite <-Hl, (filter_fmap place (λ p : Z * Z * Z, p.1.1 = f)). reflexivity. }
  assert (grid_floor_rooms h f = filter (λ r, floor r = f) (rooms h)) as Hid.
  { unfold grid_floor_rooms. apply sort_by_id, sorted_of_keys.
    replace (index <$> filter (λ r, floor r = f) (rooms h))
      with ((λ p : Z * Z * Z, p.1.2) <$> (place <$> filter (λ r, floor r = f) (rooms h)))
      by (by rewrite <-list_fmap_compose).
    by rewrite Hpl. }
  split; [done|]. by rewrite Hid, Hpl.
Qed.

(** X11: in the constructed hotel the grid has one row per floor, from
    floor 10 at the top down to floor 1, and the row of floor [f] shows that
    floor's rooms from the lift outwards: indices 0, 1, 2, ... (seven rooms
    on floor 10, ten elsewhere), whatever the occupancy. *)
Theorem grid_rows h :
  hotel_layout h →
  range_down 10 0 = [10; 9; 8; 7; 6; 5; 4; 3; 2; 1]
  ∧ ∀ f, 1 ≤ f ≤ 10 →
      grid_floor_rooms h f = filter (λ r, floor r = f) (rooms h)
      ∧ floor <$> grid_floor_rooms h f
        = replicate (if f =? 10 then 7%nat else 10%nat) f
      ∧ index <$> grid_floor_rooms h f = range 0 (if f =? 10 then 7 else 10)
      ∧ length (row_cells h f) = (if f =? 10 then 7%nat else 10%nat).
Proof.
  intros Hl. split; [done|]. intros f Hf.
  destruct (grid_floor_rooms_place h f Hl Hf) as [Hid Hpl].
  assert (f ∈ range 1 11) as Hin by (apply elem_of_range; lia).
  split_and!; [done|..].
  - replace (floor <$> grid_floor_rooms h f)
      with ((λ p : Z * Z * Z, p.1.1) <$> (place <$> grid_floor_rooms h f))
      by (by rewrite <-list_fmap_compose).
    rewrite Hpl, <-!list_fmap_compose.
    unfold range in Hin. apply list_elem_of_fmap in Hin as (k & -> & Hk).
    apply elem_of_seq in Hk. simpl in Hk.
    do 10 (destruct k as [|k]; [done|]). lia.
  - replace (index <$> grid_floor_rooms h f)
      with ((λ p : Z * Z * Z, p.1.2) <$> (place <$> grid_floor_rooms h f))
      by (by rewrite <-list_fmap_compose).
    rewrite Hpl, <-!list_fmap_compose. apply list_fmap_id.
  - unfold row_cells. rewrite length_fmap.
    apply (f_equal length) in Hpl. rewrite !length_fmap in Hpl. rewrite Hpl.
    unfold range. rewrite length_fmap, length_seq. by destruct (f =? 10).
Qed.

Lemma grid_rows_witness :
  index <$> grid_floor_rooms fragmented 10 = range 0 7
  ∧ length (row_cells fragmented 10) = 7%nat.
Proof.
  destruct (grid_rows fragmented) as [_ Hrows].
  - apply hotel_layout_generate_random, hotel_layout_init.
  - destruct (Hrows 10 ltac:(lia)) as (_ & _ & Hidx & Hlen).
    exact (conj Hidx Hlen).
Defined.

(** X12: in every reachable state a room is shown as ["[ ] "] exactly when
    it is available, as ["[*] "] exactly when its number is in
    [last_booked_ids], and as ["[X] "] exactly when it is booked and was not
    part of the most recent booking. *)
Theorem grid_cell_meaning h r :
  reachable h → r ∈ rooms h →
  (cell h r = Free ↔ is_booked r = false)
  ∧ (cell h r = JustBooked ↔ number r ∈ last_booked_ids h)
  ∧ (cell h r = Occupied ↔ is_booked r = true ∧ number r ∉ last_booked_ids h).
Proof.
  intros Hr%reachable_highlight Hin. specialize (Hr r Hin).
  unfold cell. destruct (decide (number r ∈ last_booked_ids h)) as [Hl|Hl].
  - rewrite (Hr Hl). split_and!; split; try done. by intros [_ ?].
  - destruct (is_booked r); split_and!; split; try done; by intros [? _].
Qed.

Lemma grid_cell_meaning_witness :
  cell (book_rooms gapped 2).1 (Room_init 1 0) = Free
  ↔ is_booked (Room_init 1 0) = false.
Proof.
  apply (grid_cell_meaning (book_rooms gapped 2).1 (Room_init 1 0)).
  - apply reach_book. unfold gapped.
    replace (occupy _) with
      (generate_random (λ i, negb (bool_decide (i ∈ [0; 3; 4; 9]%nat))) HotelSystem_init)
      by (by vm_compute).
    apply reach_random, reach_init.
  - vm_compute. left.
Defined.

(** ** Every room has exactly one cell *)

Lemma bind_Permutation {A B} (g g' : A → list B) (ks : list A) :
  (∀ k, k ∈ ks → g k ≡ₚ g' k) → ks ≫= g ≡ₚ ks ≫= g'.
Proof.
  induction ks as [|k ks IH]; intros Hg; [done|].
  rewrite !bind_cons. f_equiv; [apply Hg; left|].
  apply IH. intros k' Hk'. apply Hg. by right.
Qed.

Lemma partition_by_key {A} (key : A → Z) (ks : list Z) (l : list A) :
  NoDup ks → (∀ x, x ∈ l → key x ∈ ks) →
  ks ≫= (λ k, filter (λ x, key x = k) l) ≡ₚ l.
Proof.
  intros Hnd. revert l. induction Hnd as [|k ks Hk Hnd IH]; intros l Hl.
  - destruct l as [|x l]; [done|]. specialize (Hl x ltac:(left)).
    by apply elem_of_nil in Hl.
  - trans (filter (λ x, key x = k) l ++ filter (λ x, key x ≠ k) l);
      [|apply filter_app_complement].
    rewrite bind_cons. f_equiv. rewrite <-(IH (filter (λ x, key x ≠ k) l)).
    + apply bind_Permutation. intros k' Hk'.
      rewrite list_filter_filter. apply reflexive_eq, list_filter_iff.
      intros x. split; [|tauto]. intros <-. split; [done|].
      intros Heq. by rewrite Heq in Hk'.
    + intros x [Hx Hin]%list_elem_of_filter.
      specialize (Hl x Hin). apply elem_of_cons in Hl as [|]; [done..].
Qed.

Lemma fmap_bind_list {A B C} (g : B → C) (k : A → list B) (l : list A) :
  g <$> (l ≫= k) = l ≫= (λ x, g <$> k x).
Proof.
  induction l as [|x l IH]; [done|].
  by rewrite !bind_cons, fmap_app, IH.
Qed.

Lemma grid_shows_every_room_once_perm h :
  hotel_layout h → range_down 10 0 ≫= grid_floor_rooms h ≡ₚ rooms h.
Proof.
  intros Hl.
  etrans; [apply (bind_Permutation _ (λ f, filter (λ r, floor r = f) (rooms h)))|].
  - intros f _. apply sort_by_Permutation.
  - apply (partition_by_key floor).
    + eapply bool_decide_unpack. by vm_compute.
    + intros r Hr%(list_elem_of_fmap_2 place). rewrite Hl in Hr.
      assert (Forall (λ p : Z * Z * Z, p.1.1 ∈ range_down 10 0) (place <$> _init_hotel)) as HF
        by (eapply bool_decide_unpack; by vm_compute).
      rewrite Forall_forall in HF. apply (HF _ Hr).
Qed.

(** X13: in the constructed hotel the grid shows every room exactly once:
    the rooms of all the rows together are the rooms of the hotel. *)
Theorem grid_shows_every_room_once h :
  hotel_layout h →
  range_down 10 0 ≫= grid_floor_rooms h ≡ₚ rooms h
  ∧ length (grid_cells h) = 97%nat.
Proof.
  intros Hl. pose proof (grid_shows_every_room_once_perm h Hl) as Hperm.
  split; [done|].
  unfold grid_cells, row_cells.
  replace (range_down 10 0 ≫= λ f, cell h <$> grid_floor_rooms h f)
    with (cell h <$> (range_down 10 0 ≫= grid_floor_rooms h)).
  - rewrite length_fmap, Hperm. apply (f_equal length) in Hl.
    by rewrite !length_fmap in Hl.
  - apply fmap_bind_list.
Qed.

Lemma grid_shows_every_room_once_witness :
  length (grid_cells (book_rooms gapped 2).1) = 97%nat.
Proof.
  apply (grid_shows_every_room_once (book_rooms gapped 2).1).
  apply hotel_layout_book_rooms, hotel_layout_occupy.
Defined.

(** ** The grid after a booking *)

Lemma layout_numbers h :
  hotel_layout h → number <$> rooms h = number <$> _init_hotel.
Proof.
  intros Hl.
  replace (number <$> rooms h) with (snd <$> (place <$> rooms h))
    by (by rewrite <-list_fmap_compose).
  by rewrite Hl, <-list_fmap_compose.
Qed.

Lemma count_numbers (rs : list Room) (ids : list Z) :
  NoDup (number <$> rs) → NoDup ids → (∀ x, x ∈ ids → x ∈ number <$> rs) →
  length (filter (λ r, number r ∈ ids) rs) = length ids.
Proof.
  intros Hrs Hids Hsub.
  trans (length (number <$> filter (λ r, number r ∈ ids) rs));
    [by rewrite length_fmap|].
  assert (number <$> filter (λ r, number r ∈ ids) rs
          = filter (λ x, x ∈ ids) (number <$> rs)) as ->
    by (rewrite (filter_fmap number (λ x, x ∈ ids)); reflexivity).
  apply Permutation_length, NoDup_Permutation; [by apply NoDup_filter|done|].
  intros x. rewrite list_elem_of_filter. split; [tauto|]. intros Hx. split; [done|].
  by apply Hsub.
Qed.

(** X14: in the constructed hotel, after a successful [book_rooms(n)] the
    grid marks as just booked exactly the rooms whose numbers the call
    printed, and it contains exactly [n] such cells. *)
Theorem grid_highlights_new_booking h n ids :
  hotel_layout h → Success ids ∈ (book_rooms h n).2 →
  (∀ r, r ∈ rooms (book_rooms h n).1 →
     cell (book_rooms h n).1 r = JustBooked ↔ number r ∈ ids)
  ∧ Z.of_nat (length (filter (λ c, c = JustBooked) (grid_cells (book_rooms h n).1))) = n.
Proof.
  intros Hl Hin.
  destruct (book_rooms_numbers h n ids Hl Hin) as (Hnd & Hlen & Hlast & Hex & _).
  pose proof (hotel_layout_book_rooms h n Hl) as Hl'.
  set (h' := (book_rooms h n).1) in *.
  assert (∀ r, cell h' r = JustBooked ↔ number r ∈ ids) as Hcell.
  { intros r. unfold cell. rewrite Hlast.
    destruct (decide (number r ∈ ids)); [done|].
    by destruct (is_booked r). }
  split; [by intros r _|].
  pose proof (grid_shows_every_room_once_perm h' Hl') as Hperm.
  unfold grid_cells, row_cells.
  rewrite <-(fmap_bind_list (cell h') (grid_floor_rooms h')).
  rewrite (filter_fmap (cell h') (λ c, c = JustBooked)), length_fmap, Hperm.
  rewrite (list_filter_iff _ (λ r, number r ∈ ids)) by apply Hcell.
  rewrite count_numbers; [done| |done|].
  - rewrite (layout_numbers h' Hl'). apply init_hotel_numbers_NoDup.
  - intros x (i & r & Hi & <-)%Hex.
    rewrite (layout_numbers h' Hl'), <-(layout_numbers h Hl).
    by eapply list_elem_of_fmap_2, list_elem_of_lookup_2.
Qed.

Lemma grid_highlights_new_booking_witness :
  Z.of_nat (length (filter (λ c, c = JustBooked) (grid_cells (book_rooms gapped 2).1))) = 2.
Proof.
  apply (grid_highlights_new_booking gapped 2 [104; 105]).
  - apply hotel_layout_occupy.
  - vm_compute. left.
Defined.

(** * The menu loop *)

Section main_properties.
Context (parse_int : string → option Z) (coin : nat → bool).

Lemma main_loop_reachable (k : nat) inputs system draws :
  (length inputs ≤ k)%nat → reachable system →
  reachable (main_loop parse_int coin inputs system draws).1.1.
Proof.
  revert inputs system draws.
  induction k as [|k IH]; intros [|choice rest] system draws Hlen Hr;
    simpl in *; try done; try lia.
  repeat case_decide; try done.
  - destruct rest as [|line rest']; [done|]. simpl in Hlen.
    destruct (parse_int line); apply IH; try lia; [by apply reach_book|done].
  - apply IH; [lia|by apply reach_random].
  - apply IH; [lia|by apply reach_reset].
  - apply IH; [lia|done].
Qed.

Lemma main_loop_exited (k : nat) l1 l2 system draws :
  (length l1 ≤ k)%nat →
  (main_loop parse_int coin l1 system draws).2 = Exited →
  main_loop parse_int coin (l1 ++ l2) system draws
  = main_loop parse_int coin l1 system draws.
Proof.
  revert l1 system draws.
  induction k as [|k IH]; intros [|choice rest] system draws Hlen Hex;
    simpl in *; try done; try lia.
  repeat case_decide; try done.
  - destruct rest as [|line rest']; [done|]. simpl in *.
    destruct (parse_int line); apply IH; (lia || done).
  - apply IH; [lia|done].
  - apply IH; [lia|done].
  - apply IH; [lia|done].
Qed.

(** X15: whatever is typed, the hotel state at the end of a run of [main]
    is one of the reachable states: the loop only ever applies
    [book_rooms], [generate_random] and [reset] to the system it created. *)
Theorem main_reachable inputs : reachable (main parse_int coin inputs).1.1.
Proof. apply (main_loop_reachable (length inputs)); [done|apply reach_init]. Qed.

(** X16: once the user has chosen ['0'] nothing more is read: input that
    follows a run ending with the exit command does not change the result. *)
Theorem main_ignores_input_after_exit l1 l2 :
  (main parse_int coin l1).2 = Exited →
  main parse_int coin (l1 ++ l2) = main parse_int coin l1.
Proof. intros Hex. by apply (main_loop_exited (length l1)). Qed.

End main_properties.

Lemma main_ignores_input_after_exit_witness :
  main (λ _, Some 3) (λ _, false) (["1"; "3"; "4"; "0"] ++ ["2"; "1"])
  = main (λ _, Some 3) (λ _, false) ["1"; "3"; "4"; "0"].
Proof.
  apply (main_ignores_input_after_exit (λ _, Some 3) (λ _, false)).
  reflexivity.
Defined.

(** * Cost of a booking *)


Lemma init_hotel_ranges :
  Forall (λ p : Z * Z * Z, 1 ≤ p.1.1 ≤ 10 ∧ 0 ≤ p.1.2 ≤ 9) (place <$> _init_hotel).
Proof. eapply bool_decide_unpack. by vm_compute. Qed.

Lemma available_ranges h r :
  hotel_layout h → r ∈ available_rooms h → 1 ≤ rfloor r ≤ 10 ∧ 0 ≤ rindex r ≤ 9.
Proof.
  intros Hl Hr. destruct r as [i r].
  apply elem_of_available_rooms in Hr as [Hi _].
  apply list_elem_of_lookup_2, (list_elem_of_fmap_2 place) in Hi.
  rewrite Hl in Hi.
  apply (proj1 (Forall_forall _ _) init_hotel_ranges _ Hi).
Qed.

(** X18: in the constructed hotel the cost printed by a successful call is
    between [n - 1] and 9 on the same-floor path, and at most 27 on the
    cross-floor path. *)
Theorem cost_bounds h n c :
  hotel_layout h →
  TravelCost (Finite c) ∈ (book_rooms h n).2 →
  (InfoCrossFloor ∉ (book_rooms h n).2 → n - 1 ≤ c ≤ 9)
  ∧ (InfoCrossFloor ∈ (book_rooms h n).2 → c ≤ 27).
Proof.
  intros Hl Hc.
  destruct (book_rooms_cases h n)
    as [? Heq|? ? Heq|k w Hn _ _ [Hk _] Heq|k w Hn _ _ [Hk _] Heq];
    rewrite Heq in Hc |- *; try unfold booking in Hc |- *.
  1,2: exfalso; msg_in Hc.
  - assert (c = span_cost w) as ->.
    { simpl in Hc. rewrite !elem_of_cons, elem_of_nil in Hc.
      destruct Hc as [Hc|[Hc|[Hc|[]]]]; try discriminate Hc. by injection Hc. }
    split; [intros _|intros Hin; msg_in Hin].
    pose proof (list_elem_of_lookup_2 _ _ _ Hk) as Hw.
    pose proof (same_floor_span_lower h n w (hotel_layout_distinct h Hl) ltac:(lia) Hw).
    destruct (same_floor_window_valid n _ w ltac:(lia) Hw) as [Hlen Hsub].
    unfold span_cost, first_index, last_index in *.
    destruct (head w) as [x|] eqn:Hx; [|destruct w; [simpl in Hlen; lia|done]].
    destruct (last w) as [y|] eqn:Hy; [|apply last_None in Hy; by subst w].
    apply head_Some_elem_of in Hx. apply last_Some_elem_of in Hy.
    destruct (available_ranges h x Hl (elem_of_submseteq _ _ _ Hx Hsub)).
    destruct (available_ranges h y Hl (elem_of_submseteq _ _ _ Hy Hsub)). lia.
  - assert (c = box_cost w) as ->.
    { simpl in Hc. rewrite !elem_of_cons, elem_of_nil in Hc.
      destruct Hc as [Hc|[Hc|[Hc|[Hc|[]]]]]; try discriminate Hc. by injection Hc. }
    split; [intros Hno; destruct Hno; simpl; left|intros _].
    pose proof (list_elem_of_lookup_2 _ _ _ Hk) as Hw.
    destruct (cross_floor_window_valid n _ w ltac:(lia) Hw) as [Hlen Hsub].
    destruct (box_cost_spec w (length_nonempty _ n ltac:(lia) Hlen))
      as (fmax & fmin & imax & imin & [Hf1 _] & [Hf2 _] & [Hi1 _] & [Hi2 _] & ->).
    apply list_elem_of_fmap in Hf1 as (r1 & -> & Hr1).
    apply list_elem_of_fmap in Hf2 as (r2 & -> & Hr2).
    apply list_elem_of_fmap in Hi1 as (r3 & -> & Hr3).
    apply list_elem_of_fmap in Hi2 as (r4 & -> & Hr4).
    destruct (available_ranges h r1 Hl (elem_of_submseteq _ _ _ Hr1 Hsub)).
    destruct (available_ranges h r2 Hl (elem_of_submseteq _ _ _ Hr2 Hsub)).
    destruct (available_ranges h r3 Hl (elem_of_submseteq _ _ _ Hr3 Hsub)).
    destruct (available_ranges h r4 Hl (elem_of_submseteq _ _ _ Hr4 Hsub)). lia.
Qed.

Lemma cost_bounds_witness :
  hotel_layout sparse
  ∧ TravelCost (Finite 9) ∈ (book_rooms sparse 2).2
  ∧ 2 - 1 ≤ 9 ≤ 9.
Proof.
  assert (hotel_layout sparse) as Hl
    by apply hotel_layout_generate_random, hotel_layout_init.
  assert (TravelCost (Finite 9) ∈ (book_rooms sparse 2).2) as Hc
    by (vm_compute; right; left).
  split_and!; [exact Hl|exact Hc|..];
    apply (proj1 (cost_bounds sparse 2 9 Hl Hc));
    (replace (book_rooms sparse 2).2
       with [Success [101; 110]; TravelCost (Finite 9); Grid] by (by vm_compute));
    intros Hin; msg_in Hin.
Defined.

(** * A request for one room *)

(** In the constructed hotel, rooms of one floor appear in [self.rooms] in
    ascending order of index, and all rooms in ascending order of number. *)
Lemma init_hotel_index_order :
  StronglySorted (λ p q : Z * Z * Z, p.1.1 = q.1.1 → p.1.2 ≤ q.1.2)
                 (place <$> _init_hotel).
Proof. eapply bool_decide_unpack. by vm_compute. Qed.

Lemma init_hotel_numbers_sorted : StronglySorted Z.lt (number <$> _init_hotel).
Proof. eapply bool_decide_unpack. by vm_compute. Qed.

Lemma index_sorted_of_floor f (l : list Ref) :
  Forall (λ r : Ref, rfloor r = f) l →
  StronglySorted (λ p q : Z * Z * Z, p.1.1 = q.1.1 → p.1.2 ≤ q.1.2)
                 (place <$> (snd <$> l)) →
  StronglySorted (key_le rindex) l.
Proof.
  induction 1 as [|x l Hx Hf IH]; [constructor|].
  rewrite !fmap_cons. intros [Hhd Hs]%StronglySorted_cons.
  constructor; [by apply IH|].
  apply Forall_forall. intros y Hy.
  rewrite Forall_forall in Hhd. rewrite Forall_forall in Hf.
  specialize (Hhd (place y.2)
                (list_elem_of_fmap_2 place _ _ (list_elem_of_fmap_2 snd _ _ Hy))).
  unfold key_le. apply Hhd. simpl. unfold rfloor in Hx. rewrite Hx.
  symmetry. apply (Hf y Hy).
Qed.

Lemma on_floor_index_sorted h f :
  hotel_layout h →
  StronglySorted (key_le rindex) (on_floor f (available_rooms h)).
Proof.
  intros Hl. apply (index_sorted_of_floor f).
  { apply Forall_forall. intros r Hr. by apply list_elem_of_filter in Hr as [? _]. }
  eapply StronglySorted_sublist; [|apply init_hotel_index_order].
  unfold hotel_layout in Hl. rewrite <-Hl. apply fmap_sublist.
  transitivity (snd <$> available_rooms h).
  - apply fmap_sublist, sublist_filter.
  - rewrite available_rooms_unbooked. apply sublist_filter.
Qed.

Lemma available_numbers_sorted h :
  hotel_layout h → StronglySorted Z.lt (rnumber <$> available_rooms h).
Proof.
  intros Hl.
  replace (rnumber <$> available_rooms h) with (number <$> (snd <$> available_rooms h))
    by (by rewrite <-list_fmap_compose).
  rewrite available_rooms_unbooked.
  eapply StronglySorted_sublist; [apply fmap_sublist, sublist_filter|].
  rewrite layout_numbers by done. apply init_hotel_numbers_sorted.
Qed.

(** X19: in the constructed hotel a request for one room books the first
    available room of [self.rooms] at cost 0, and that room is the
    available room with the lowest number. *)
Theorem single_room_lowest_number h r0 rest :
  hotel_layout h →
  available_rooms h = r0 :: rest →
  book_rooms h 1 = booking h [r0] 0 []
  ∧ ∀ r, r ∈ rooms h → is_booked r = false → rnumber r0 ≤ number r.
Proof.
  intros Hl Hav. split.
  - assert (same_floor_windows 1 (available_rooms h) !! 0%nat = Some [r0]) as H0.
    { pose proof (on_floor_index_sorted h (rfloor r0) Hl) as Hs.
      unfold same_floor_windows. rewrite Hav in Hs |- *.
      destruct (group_by_floor_head r0 rest) as [d ->].
      rewrite bind_cons. unfold floor_windows. cbn [snd].
      rewrite (sort_by_id rindex _ Hs).
      assert (on_floor (rfloor r0) (r0 :: rest) = r0 :: on_floor (rfloor r0) rest) as ->.
      { unfold on_floor. by rewrite filter_cons, decide_True. }
      destruct (Z.leb_spec 1 (Z.of_nat (length (r0 :: on_floor (rfloor r0) rest))))
        as [_|Hlt]; [|simpl in Hlt; lia].
      rewrite lookup_app_l.
      - rewrite lookup_windows by (simpl; lia). done.
      - unfold windows, range0. rewrite length_fmap, length_seq. simpl. lia. }
    destruct (book_rooms_cases h 1)
      as [Hn _|_ Hlen _|k w _ _ _ [Hk Hmin] Heq|k w _ _ Hf _ _].
    + lia.
    + rewrite Hav in Hlen. simpl in Hlen. lia.
    + pose proof (same_floor_span_lower h 1 w (hotel_layout_distinct h Hl) ltac:(lia)
                    (list_elem_of_lookup_2 _ _ _ Hk)) as Hlow.
      destruct (Hmin 0%nat [r0] H0) as [Hle Hlt].
      assert (span_cost [r0] = 0) as Hz by (unfold span_cost, first_index, last_index; simpl; lia).
      rewrite Hz in Hle, Hlt.
      destruct k as [|k]; [|lia].
      rewrite H0 in Hk. injection Hk as <-. by rewrite Heq, Hz.
    + specialize (Hf (rfloor r0)). rewrite Hav in Hf.
      unfold on_floor in Hf. rewrite filter_cons, decide_True in Hf by done.
      simpl in Hf. lia.
  - intros r Hr Hb.
    apply list_elem_of_lookup in Hr as [i Hi].
    assert ((i, r) ∈ available_rooms h) as Hin by by apply elem_of_available_rooms.
    pose proof (available_numbers_sorted h Hl) as Hs.
    rewrite Hav in Hin, Hs. rewrite fmap_cons in Hs.
    apply StronglySorted_cons in Hs as [Hhd _].
    apply elem_of_cons in Hin as [<-|Hin]; [done|].
    rewrite Forall_forall in Hhd.
    specialize (Hhd _ (list_elem_of_fmap_2 rnumber _ _ Hin)). simpl in Hhd.
    unfold rnumber in *. simpl in *. lia.
Qed.

Lemma single_room_lowest_number_witness :
  hotel_layout sparse
  ∧ (book_rooms sparse 1).2 = [Success [101]; TravelCost (Finite 0); Grid]
  ∧ Forall (λ r, is_booked r = false → 101 ≤ number r) (rooms sparse).
Proof.
  assert (hotel_layout sparse) as Hl
    by apply hotel_layout_generate_random, hotel_layout_init.
  assert (available_rooms sparse
          = (0%nat, Room_init 1 0) :: tail (available_rooms sparse)) as Hav
    by (by vm_compute).
  destruct (single_room_lowest_number sparse (0%nat, Room_init 1 0)
              (tail (available_rooms sparse)) Hl Hav) as [Heq Hmin].
  split_and!; [exact Hl| |].
  - rewrite Heq. reflexivity.
  - apply Forall_forall. intros r Hr Hb. exact (Hmin r Hr Hb).
Defined.

(** * The text of a grid row *)

Lemma string_app_cons a (s t : string) : String a s +:+ t = String a (s +:+ t).
Proof. reflexivity. Qed.

Lemma string_app_nil_r (s : string) : s +:+ EmptyString = s.
Proof. induction s as [|a s IH]; [done|]. by rewrite string_app_cons, IH. Qed.

Lemma string_app_assoc (s t u : string) : (s +:+ t) +:+ u = s +:+ (t +:+ u).
Proof. induction s as [|a s IH]; [done|]. by rewrite !string_app_cons, IH. Qed.

Lemma string_length_app (s t : string) :
  String.length (s +:+ t) = (String.length s + String.length t)%nat.
Proof. induction s as [|a s IH]; [done|]. rewrite string_app_cons. simpl. by rewrite IH. Qed.

Lemma substring_app_skip (s t : string) (n m : nat) :
  String.substring (String.length s + n) m (s +:+ t) = String.substring n m t.
Proof. induction s as [|a s IH]; [done|]. rewrite string_app_cons. exact IH. Qed.

Lemma row_str_cells_text h f :
  row_str h f = ("Floor " +:+ fmt_width2 f +:+ " | ") +:+ cells_text (row_cells h f).
Proof.
  unfold row_str. generalize ("Floor " +:+ fmt_width2 f +:+ " | ").
  induction (row_cells h f) as [|c cs IH]; intros p; simpl.
  - by rewrite string_app_nil_r.
  - by rewrite IH, string_app_assoc.
Qed.

Lemma length_cells_text cs : String.length (cells_text cs) = (4 * length cs)%nat.
Proof.
  induction cs as [|c cs IH]; simpl; [done|].
  rewrite string_length_app, IH. destruct c; simpl; lia.
Qed.

Lemma substring_cell_text c (s : string) :
  String.substring 0 4 (cell_text c +:+ s) = cell_text c.
Proof. destruct c; destruct s; reflexivity. Qed.

Lemma substring_cells_text cs (i : nat) c :
  cs !! i = Some c → String.substring (4 * i) 4 (cells_text cs) = cell_text c.
Proof.
  revert i. induction cs as [|x cs IH]; intros [|i] Hi; try done.
  - injection Hi as ->. apply substring_cell_text.
  - replace (4 * S i)%nat with (String.length (cell_text x) + 4 * i)%nat
      by (destruct x; simpl; lia).
    cbn [cells_text foldr]. rewrite substring_app_skip. by apply IH.
Qed.

Lemma length_row_label :
  Forall (λ f, String.length ("Floor " +:+ fmt_width2 f +:+ " | ") = 11%nat)
         (range 1 11).
Proof. eapply bool_decide_unpack. by vm_compute. Qed.

(** X20: every row of the grid starts with a label of 11 characters and
    gives 4 characters to each room, so the cell of the room at place [i]
    of the row stands at columns [11 + 4 i] to [14 + 4 i] on every floor,
    and the row is [11 + 4 k] characters long for [k] rooms. *)
Theorem grid_row_text h f (i : nat) c :
  1 ≤ f ≤ 10 →
  row_cells h f !! i = Some c →
  String.length (row_str h f) = (11 + 4 * length (row_cells h f))%nat
  ∧ String.substring (11 + 4 * i) 4 (row_str h f) = cell_text c.
Proof.
  intros Hf Hi.
  assert (f ∈ range 1 11) as Hin by (apply elem_of_range; lia).
  pose proof (proj1 (Forall_forall _ _) length_row_label f Hin) as Hlen.
  cbv beta in Hlen.
  rewrite row_str_cells_text. split.
  - by rewrite string_length_app, Hlen, length_cells_text.
  - rewrite <-Hlen, substring_app_skip. by apply substring_cells_text.
Qed.

Lemma grid_row_text_witness :
  row_cells (book_rooms gapped 2).1 1 !! 3%nat = Some JustBooked
  ∧ String.length (row_str (book_rooms gapped 2).1 1) = 51%nat
  ∧ String.substring 23 4 (row_str (book_rooms gapped 2).1 1) = "[*] ".
Proof.
  assert (row_cells (book_rooms gapped 2).1 1 !! 3%nat = Some JustBooked) as Hi
    by (by vm_compute).
  destruct (grid_row_text (book_rooms gapped 2).1 1 3 JustBooked ltac:(lia) Hi)
    as [Hlen Hsub].
  split_and!; [exact Hi| |exact Hsub].
  rewrite Hlen. by vm_compute.
Defined.
